(** * banks_project.py: a shallow embedding of the ETL pipeline

    The program scrapes one HTML table (bank name, market capitalisation in
    USD), cleans the capitalisation into a float, converts it into three other
    currencies, writes the result to a CSV file and to a SQLite table, and
    runs one aggregate query.  The embedding follows the source function by
    function: [log_progress], [extract], [transform], [load_to_csv],
    [load_to_db], [run_query] and the [__main__] driver.

    The libraries the program calls are modelled by what they do on the data
    this program hands them:
    - a Python str is given by its UTF-8 bytes ([string]; [code_points] gives
      its characters), Python floats are binary64 ([float], the kernel's
      primitive floats);
    - a parsed page is a tree of [PageElement]s and [find_all] is the
      document-order descendant search of BeautifulSoup;
    - a pandas DataFrame is an ordered list of named columns over a default
      positional index 0..n-1 (every frame of this program has that index);
    - a SQLite database is a finite map from table names to tables. *)

From Stdlib Require Import ZArith List String Ascii Floats Lia.
From stdpp Require Import gmap strings list pretty.

Set Warnings "-inexact-float,-register-all".

(** ** Exceptions and results *)

(** The Python exceptions that the modelled code can raise. *)
Inductive exn :=
  | IndexError          (* sequence index out of range *)
  | KeyError (key : string)
  | ValueError          (* float() on a string that is no float literal *)
  | TypeError           (* calling an attribute that is None *)
  | AttributeError      (* a float has no split method *)
  | RequestException    (* requests.get failed *)
  | FileNotFoundError   (* the reference file could not be read *)
  | PermissionError     (* the output file may not be written *)
  | InterfaceError      (* sqlite3: a value that cannot be bound *)
  | OperationalError    (* sqlite3: the table has no such column *)
  | ProgrammingError    (* sqlite3: the connection is not open *)
  | DatabaseError       (* pandas: the statement failed to execute *)
  | UnsupportedStatement. (* SQL outside the fragment modelled here *)

(** A computation that returns a value or raises. *)
Inductive result (A : Type) :=
  | Ok (a : A)
  | Raise (e : exn).
Arguments Ok {A} a.
Arguments Raise {A} e.

Definition bind {A B} (m : result A) (k : A -> result B) : result B :=
  match m with
  | Ok a => k a
  | Raise e => Raise e
  end.

Notation "'let*' x ':=' m 'in' k" := (bind m (fun x => k))
  (at level 10, x pattern, m at level 100, k at level 200).

(** [[f(x) for x in l]] for an [f] that may raise: left to right, stopping at
    the first exception. *)
Fixpoint mapM {A B} (f : A -> result B) (l : list A) : result (list B) :=
  match l with
  | [] => Ok []
  | x :: l' => let* y := f x in let* ys := mapM f l' in Ok (y :: ys)
  end.

(** [l[i]] on a Python list. *)
Definition py_index {A} (l : list A) (i : nat) : result A :=
  match l !! i with
  | Some x => Ok x
  | None => Raise IndexError
  end.

(** ** Python strings *)

(** [s.split(sep)] for a one-character separator. *)
Fixpoint str_split (sep : ascii) (s : string) : list string :=
  match s with
  | EmptyString => [EmptyString]
  | String c s' =>
      if Ascii.eqb c sep then EmptyString :: str_split sep s'
      else match str_split sep s' with
           | seg :: rest => String c seg :: rest
           | [] => [String c EmptyString]
           end
  end.

(** [''.join(l)]. *)
Fixpoint str_join (l : list string) : string :=
  match l with
  | [] => EmptyString
  | s :: l' => s +:+ str_join l'
  end.

(** The characters of [s] other than [c], in order. *)
Fixpoint str_remove (c : ascii) (s : string) : string :=
  match s with
  | EmptyString => EmptyString
  | String a s' => if Ascii.eqb a c then str_remove c s' else String a (str_remove c s')
  end.

(** [c in s]. *)
Fixpoint str_mem (c : ascii) (s : string) : bool :=
  match s with
  | EmptyString => false
  | String a s' => Ascii.eqb a c || str_mem c s'
  end.

Definition newline : ascii := ascii_of_nat 10.
Definition comma : ascii := ascii_of_nat 44.

(** *** The characters of a str *)

(** The payload of a continuation byte of UTF-8. *)
Definition continuation (c : ascii) : option N :=
  let n := N_of_ascii c in
  if (128 <=? n)%N && (n <? 192)%N then Some (n - 128)%N else None.

(** The characters (code points) of a str, from its UTF-8 bytes; [None]
    for bytes that are the UTF-8 form of no str. *)
Fixpoint code_points (s : string) : option (list N) :=
  match s with
  | EmptyString => Some []
  | String c0 s1 =>
      let b0 := N_of_ascii c0 in
      if (b0 <? 128)%N then cons b0 <$> code_points s1
      else if (b0 <? 192)%N then None
      else if (b0 <? 224)%N then
        match s1 with
        | String c1 s2 =>
            match continuation c1 with
            | Some x1 =>
                let cp := ((b0 - 192) * 64 + x1)%N in
                if (128 <=? cp)%N then cons cp <$> code_points s2 else None
            | None => None
            end
        | EmptyString => None
        end
      else if (b0 <? 240)%N then
        match s1 with
        | String c1 (String c2 s3) =>
            match continuation c1, continuation c2 with
            | Some x1, Some x2 =>
                let cp := ((b0 - 224) * 4096 + x1 * 64 + x2)%N in
                if (2048 <=? cp)%N && negb ((55296 <=? cp)%N && (cp <=? 57343)%N)
                then cons cp <$> code_points s3 else None
            | _, _ => None
            end
        | _ => None
        end
      else if (b0 <? 248)%N then
        match s1 with
        | String c1 (String c2 (String c3 s4)) =>
            match continuation c1, continuation c2, continuation c3 with
            | Some x1, Some x2, Some x3 =>
                let cp := ((b0 - 240) * 262144 + x1 * 4096 + x2 * 64 + x3)%N in
                if (65536 <=? cp)%N && (cp <=? 1114111)%N
                then cons cp <$> code_points s4 else None
            | _, _, _ => None
            end
        | _ => None
        end
      else None
  end.

(** The Unicode character database, as far as [float] consults it
    (Unicode 14.0, the database of Python 3.11; later versions add decimal
    digits). *)
Module Unicode.

(** The white space outside ASCII ([Py_UNICODE_ISSPACE]). *)
Definition white_space : list N :=
  [133; 160; 5760; 8192; 8193; 8194; 8195; 8196; 8197; 8198; 8199; 8200; 8201;
   8202; 8232; 8233; 8239; 8287; 12288]%N.

(** The decimal digits outside ASCII come in runs of ten, zero to nine:
    the zero of each run. *)
Definition decimal_zeros : list N :=
  [1632; 1776; 1984; 2406; 2534; 2662; 2790; 2918; 3046; 3174; 3302;
   3430; 3558; 3664; 3792; 3872; 4160; 4240; 6112; 6160; 6470; 6608;
   6784; 6800; 6992; 7088; 7232; 7248; 42528; 43216; 43264; 43472;
   43504; 43600; 44016; 65296; 66720; 68912; 69734; 69872; 69942; 70096;
   70384; 70736; 70864; 71248; 71360; 71472; 71904; 72016; 72784; 73040;
   73120; 92768; 92864; 93008; 120782; 120792; 120802; 120812; 120822;
   123200; 123632; 125264; 130032]%N.

End Unicode.

(** ** Python floats *)

Module PyFloat.

(** *** Reading a float literal: [float(s)] *)

Definition is_digit (c : ascii) : bool :=
  let n := nat_of_ascii c in (48 <=? n)%nat && (n <=? 57)%nat.

Definition digit_val (c : ascii) : Z := Z.of_nat (nat_of_ascii c) - 48.

(** The white space that [float] drops around a literal: C's [isspace] on
    ASCII (tab, line feed, vertical tab, form feed, carriage return,
    space). *)
Definition is_space (c : ascii) : bool :=
  let n := nat_of_ascii c in
  ((9 <=? n)%nat && (n <=? 13)%nat) || (n =? 32)%nat.

Fixpoint lstrip (s : string) : string :=
  match s with
  | String c s' => if is_space c then lstrip s' else s
  | EmptyString => EmptyString
  end.

(** Drops trailing white space. *)
Fixpoint rstrip (s : string) : string :=
  match s with
  | EmptyString => EmptyString
  | String c s' =>
      match rstrip s' with
      | EmptyString => if is_space c then EmptyString else String c EmptyString
      | t => String c t
      end
  end.

Definition strip (s : string) : string := rstrip (lstrip s).

Definition lower (c : ascii) : ascii :=
  let n := nat_of_ascii c in
  if (65 <=? n)%nat && (n <=? 90)%nat then ascii_of_nat (n + 32) else c.

Fixpoint str_lower (s : string) : string :=
  match s with
  | EmptyString => EmptyString
  | String c s' => String (lower c) (str_lower s')
  end.

(** The digits that follow a digit: [(["_"] digit)*].  An underscore is
    read only when a digit follows it. *)
Fixpoint digits_tail (s : string) : list Z * string :=
  match s with
  | String c s' =>
      if is_digit c then
        let (ds, r) := digits_tail s' in (digit_val c :: ds, r)
      else if Ascii.eqb c "_" then
        match s' with
        | String d s'' =>
            if is_digit d then
              let (ds, r) := digits_tail s'' in (digit_val d :: ds, r)
            else ([], s)
        | EmptyString => ([], s)
        end
      else ([], s)
  | EmptyString => ([], s)
  end.

(** [digitpart ::= digit (["_"] digit)*], possibly absent: the digits
    read (none when [s] does not start with a digit) and what follows. *)
Definition digitpart (s : string) : list Z * string :=
  match s with
  | String c s' =>
      if is_digit c then
        let (ds, r) := digits_tail s' in (digit_val c :: ds, r)
      else ([], s)
  | EmptyString => ([], s)
  end.

Definition of_digits (ds : list Z) : Z :=
  fold_left (fun acc d => 10 * acc + d)%Z ds 0%Z.

(** An optional sign: [true] for "-". *)
Definition sign (s : string) : bool * string :=
  match s with
  | String c s' =>
      if Ascii.eqb c "-" then (true, s')
      else if Ascii.eqb c "+" then (false, s')
      else (false, s)
  | EmptyString => (false, s)
  end.

(** [("e" | "E") [sign] digitpart], possibly absent: the exponent and what
    follows; [None] when an "e" is not followed by an exponent. *)
Definition exponent (s : string) : option (Z * string) :=
  match s with
  | String c s' =>
      if Ascii.eqb (lower c) "e" then
        let (neg, s1) := sign s' in
        match digitpart s1 with
        | ([], _) => None
        | (ds, r) => Some (if neg then (- of_digits ds)%Z else of_digits ds, r)
        end
      else Some (0%Z, s)
  | EmptyString => Some (0%Z, s)
  end.

(** The binary64 nearest to [(-1)^neg * d * 10^k], ties to even.  For a
    negative [k] the quotient is computed with more than 64 bits and a
    sticky bit, so that one rounding to 53 bits (or fewer, for a
    subnormal) is the rounding of the exact value. *)
Definition of_decimal (neg : bool) (d k : Z) : float :=
  if (d =? 0)%Z then (if neg then neg_zero else zero)
  else if (0 <=? k)%Z then
    SF2Prim (binary_normalize prec emax (cond_Zopp neg (d * 10 ^ k)) 0 false)
  else
    let p := (10 ^ (- k))%Z in
    let s := Z.max 0 (Z.log2 p + 66 - Z.log2 d) in
    let n := (d * 2 ^ s)%Z in
    let m := (2 * (n / p) + (if (n mod p =? 0)%Z then 0 else 1))%Z in
    SF2Prim (binary_normalize prec emax (cond_Zopp neg m) (- (s + 1)) false).

(** [floatnumber ::= number [exponent]] with
    [number ::= [digitpart] "." digitpart | digitpart ["."]]; nothing may
    follow it. *)
Definition floatnumber (neg : bool) (s : string) : option float :=
  let (ip, r1) := digitpart s in
  let '(fp, r2) :=
    match r1 with
    | String c r1' => if Ascii.eqb c "." then digitpart r1' else ([], r1)
    | EmptyString => ([], r1)
    end in
  match ip ++ fp with
  | [] => None
  | ds =>
      match exponent r2 with
      | Some (e, EmptyString) =>
          Some (of_decimal neg (of_digits ds) (e - Z.of_nat (length fp)))
      | _ => None
      end
  end.

(** An ASCII string as a float: white space around the literal is
    dropped; "inf", "infinity" and "nan" are read in any case, with an
    optional sign. *)
Definition literal (s : string) : option float :=
  let (neg, t) := sign (strip s) in
  let name := str_lower t in
  if String.eqb name "inf" || String.eqb name "infinity" then
    Some (if neg then neg_infinity else infinity)
  else if String.eqb name "nan" then Some nan
  else floatnumber neg t.

Definition is_unicode_space (c : N) : bool := existsb (N.eqb c) Unicode.white_space.

(** The value of a decimal digit outside ASCII. *)
Definition unicode_decimal (c : N) : option N :=
  (fun z => (c - z)%N)
    <$> List.find (fun z => (z <=? c)%N && (c <? z + 10)%N) Unicode.decimal_zeros.

(** What [float] makes of the characters of a str that is not ASCII,
    before it reads it: a character below 127 is kept, a white space
    becomes a space, a decimal digit the ASCII digit of its value; at any
    other character the string is cut and ends with a question mark. *)
Fixpoint to_ascii (cps : list N) : string :=
  match cps with
  | [] => EmptyString
  | c :: r =>
      if (c <? 127)%N then String (ascii_of_N c) (to_ascii r)
      else if is_unicode_space c then String " " (to_ascii r)
      else
        match unicode_decimal c with
        | Some d => String (ascii_of_N (48 + d)) (to_ascii r)
        | None => "?"
        end
  end.

Fixpoint is_ascii (s : string) : bool :=
  match s with
  | EmptyString => true
  | String c s' => (N_of_ascii c <? 128)%N && is_ascii s'
  end.

(** [float(s)]: an ASCII str is read as it is, another one after
    [to_ascii]. *)
Definition parse (s : string) : option float :=
  if is_ascii s then literal s
  else
    match code_points s with
    | Some cps => literal (to_ascii cps)
    | None => None
    end.

Definition float (s : string) : result float :=
  match parse s with
  | Some f => Ok f
  | None => Raise ValueError
  end.

(** *** Rounding: [np.round(x, decimals)] *)

(** C's [rint] in the default rounding mode: the nearest integer, ties to
    even; infinities, NaN and zeros are returned as they are. *)
Definition rint (x : PrimFloat.float) : PrimFloat.float :=
  match Prim2SF x with
  | S754_finite s m e =>
      if (0 <=? e)%Z then x
      else
        let '(mrs, _) := shr (Build_shr_record (Zpos m) false false) e (- e) in
        let n := round_nearest_even (shr_m mrs) (loc_of_shr_record mrs) in
        SF2Prim (binary_normalize prec emax (cond_Zopp s n) 0 s)
  | _ => x
  end.

(** The float [10.0 ** decimals] (exact up to [decimals = 22]). *)
Definition power_of_ten (decimals : nat) : PrimFloat.float :=
  SF2Prim (binary_normalize prec emax (10 ^ Z.of_nat decimals) 0 false).

(** NumPy rounds to [decimals >= 0] places by scaling, [rint] and scaling
    back. *)
Definition np_round (x : PrimFloat.float) (decimals : nat) : PrimFloat.float :=
  (rint (x * power_of_ten decimals) / power_of_ten decimals)%float.

End PyFloat.

(** ** Parsed pages (BeautifulSoup) *)

(** A node of the parse tree: a piece of text or an element with its
    children.  Attributes are left out: the program reads none. *)
Inductive PageElement :=
  | NavigableString (text : string)
  | Tag (name : string) (children : list PageElement).

(** [tag.contents]. *)
Definition contents (e : PageElement) : list PageElement :=
  match e with
  | Tag _ cs => cs
  | NavigableString _ => []
  end.

(** Every node below [e], in document order. *)
Fixpoint descendants (e : PageElement) : list PageElement :=
  match e with
  | NavigableString _ => []
  | Tag _ cs => flat_map (fun c => c :: descendants c) cs
  end.

Definition is_tag (name : string) (e : PageElement) : bool :=
  match e with
  | Tag n _ => String.eqb n name
  | NavigableString _ => false
  end.

(** [e.find_all(name)]: the elements called [name] below [e], in document
    order. *)
Definition find_all (name : string) (e : PageElement) : list PageElement :=
  List.filter (is_tag name) (descendants e).

(** ** DataFrames (pandas) *)

(** What a frame of this program holds in a cell: an object taken from the
    page, a float, or None (a NULL read back from the database).  A missing
    value is the float NaN. *)
Inductive cell :=
  | Obj (e : PageElement)
  | Num (f : float)
  | PyNone.

Definition NaN : cell := Num nan.

(** A frame: its number of rows and its columns in order, each a name with
    one cell per row.  The index is always 0..nrows-1. *)
Record DataFrame := mkFrame {
  nrows : nat;
  data : list (string * list cell)
}.

Definition columns (df : DataFrame) : list string := map fst (data df).

(** Every column has one cell per row. *)
Definition wf_frame (df : DataFrame) : Prop :=
  Forall (fun c => length (snd c) = nrows df) (data df).

Fixpoint assoc {A} (k : string) (l : list (string * A)) : option A :=
  match l with
  | [] => None
  | (k', v) :: l' => if String.eqb k' k then Some v else assoc k l'
  end.

(** [pd.DataFrame(columns=names)]. *)
Definition empty_frame (names : list string) : DataFrame :=
  {| nrows := 0; data := map (fun c => (c, [])) names |}.

(** [pd.DataFrame(d, index=[0])] for a dict [d] of scalars: one row that
    holds the values as they are.  (The text nodes that the program expects
    are scalars; an element is iterable, and pandas would take it for the
    list of its children.) *)
Definition frame_of_dict (d : list (string * cell)) : DataFrame :=
  {| nrows := 1; data := map (fun kv => (fst kv, [snd kv])) d |}.

(** The column [c] of [df], or NaN in every row when [df] has no such
    column. *)
Definition column_or_nan (df : DataFrame) (c : string) : list cell :=
  match assoc c (data df) with
  | Some l => l
  | None => replicate (nrows df) NaN
  end.

Definition has_column (df : DataFrame) (c : string) : bool :=
  existsb (String.eqb c) (columns df).

(** [pd.concat([df, df1], ignore_index=True)]: the columns of [df], then
    those of [df1] that [df] lacks; the rows of [df], then those of [df1],
    with NaN where a frame lacks a column.  (This is pandas on frames whose
    column names are distinct; with a repeated name and differing columns
    it raises instead.) *)
Definition concat (df df1 : DataFrame) : DataFrame :=
  let names :=
    columns df ++ List.filter (fun c => negb (has_column df c)) (columns df1) in
  {| nrows := nrows df + nrows df1;
     data := map (fun c => (c, column_or_nan df c ++ column_or_nan df1 c)) names |}.

(** [df[c]] for a label that names one column.  (With a repeated label
    pandas gives a frame, not a column; here the first column of that name
    is taken.) *)
Definition get_column (df : DataFrame) (c : string) : result (list cell) :=
  match assoc c (data df) with
  | Some l => Ok l
  | None => Raise (KeyError c)
  end.

Fixpoint replace_column (c : string) (l : list cell) (d : list (string * list cell))
  : list (string * list cell) :=
  match d with
  | [] => [(c, l)]
  | (k, v) :: d' =>
      if String.eqb k c then (k, l) :: d' else (k, v) :: replace_column c l d'
  end.

(** [df[c] = l] for a list [l]: the column is overwritten where it stands,
    or added after the last one; the list must have one value per row. *)
Definition set_column (df : DataFrame) (c : string) (l : list cell) : result DataFrame :=
  if (length l =? nrows df)%nat then
    Ok {| nrows := nrows df; data := replace_column c l (data df) |}
  else Raise ValueError.

(** The cells of row [i], in column order. *)
Definition row_at (df : DataFrame) (i : nat) : list cell :=
  map (fun c => nth i (snd c) NaN) (data df).

(** The rows of a frame, in index order. *)
Definition frame_rows (df : DataFrame) : list (list cell) :=
  map (row_at df) (seq 0 (nrows df)).

(** ** The host: what the program reads from outside *)

(** The outside world as the program observes it.  [soup_of url] is
    [BeautifulSoup(requests.get(url).text, 'html.parser')];
    [rates_of path] is the dict
    [pd.read_csv(path).set_index('Currency').to_dict()['Rate']];
    [timestamp n] is the local time, formatted, at the [n]-th reading of the
    clock; [str_of_float] is [repr] of a float and [str_of_tag] is the
    markup of an element, as the CSV writer obtains them;
    [real_of_text] is SQLite's reading of a TEXT value as a number;
    [write_error path] is the exception that opening [path] for writing
    raises when the file cannot be written (PermissionError, or another
    OSError: a missing directory, a directory in place of the file). *)
Record Host := {
  soup_of : string -> result PageElement;
  rates_of : string -> result (gmap string float);
  timestamp : nat -> string;
  str_of_float : float -> string;
  str_of_tag : PageElement -> string;
  real_of_text : string -> float;
  write_error : string -> exn
}.

(** ** extract *)

(** One turn of the loop over the table rows.  [find_all] returns a list,
    so the test [bank_name is not None] always holds and [data_dict] is
    rebuilt for every row that has a cell.  The two pandas calls are as
    they are on text nodes and distinct column names ([takes_text]),
    where they do not raise. *)
Definition extract_row (row : PageElement) (df : DataFrame) : result DataFrame :=
  let col := find_all "td" row in
  if negb (length col =? 0)%nat then
    let* c1 := py_index col 1 in
    let bank_name := find_all "a" c1 in
    let* a := py_index bank_name 1 in
    let* name := py_index (contents a) 0 in
    let* c2 := py_index col 2 in
    let* mc := py_index (contents c2) 0 in
    let data_dict := [("Name"%string, Obj name); ("MC_USD_Billion"%string, Obj mc)] in
    let df1 := frame_of_dict data_dict in
    Ok (concat df df1)
  else Ok df.

Fixpoint extract_rows (rows : list PageElement) (df : DataFrame) : result DataFrame :=
  match rows with
  | [] => Ok df
  | row :: rows' => let* df' := extract_row row df in extract_rows rows' df'
  end.

Definition extract (h : Host) (url : string) (table_attributes : list string)
  : result DataFrame :=
  let* data := soup_of h url in
  let df := empty_frame table_attributes in
  let table := find_all "tbody" data in
  let* t0 := py_index table 0 in
  let rows := find_all "tr" t0 in
  extract_rows rows df.

(** ** transform *)

(** [float(''.join((x.split('\n')[0]).split(',')))] for a cell [x] of the
    column.  On an element [x.split] is [x.find('split')], which is None. *)
Definition clean (x : cell) : result float :=
  match x with
  | Obj (NavigableString s) =>
      let* seg := py_index (str_split newline s) 0 in
      PyFloat.float (str_join (str_split comma seg))
  | Obj (Tag _ _) => Raise TypeError
  | Num _ => Raise AttributeError
  | PyNone => Raise AttributeError
  end.

(** A cell as an operand of [*] with a float. *)
Definition cell_float (x : cell) : result float :=
  match x with
  | Num f => Ok f
  | _ => Raise TypeError
  end.

(** [[np.round(x*d[code],2) for x in xs]]: the rate is looked up for every
    element, so an empty column raises no KeyError. *)
Definition converted (d : gmap string float) (code : string) (xs : list cell)
  : result (list cell) :=
  mapM (fun x =>
          match d !! code with
          | None => Raise (KeyError code)
          | Some rate =>
              let* v := cell_float x in
              Ok (Num (PyFloat.np_round (v * rate) 2))
          end) xs.

Definition transform (h : Host) (df : DataFrame) (csv_path : string) : result DataFrame :=
  let* currency_exchange_dict := rates_of h csv_path in
  let* col := get_column df "MC_USD_Billion" in
  let* usd_billion := mapM clean col in
  let* df := set_column df "MC_USD_Billion" (map Num usd_billion) in
  let* usd := get_column df "MC_USD_Billion" in
  let* gbp_billion := converted currency_exchange_dict "GBP" usd in
  let* df := set_column df "MC_GBP_Billion" gbp_billion in
  let* usd := get_column df "MC_USD_Billion" in
  let* eur_billion := converted currency_exchange_dict "EUR" usd in
  let* df := set_column df "MC_EUR_Billion" eur_billion in
  let* usd := get_column df "MC_USD_Billion" in
  let* inr_billion := converted currency_exchange_dict "INR" usd in
  set_column df "MC_INR_Billion" inr_billion.

(** ** The CSV writer: [df.to_csv(path)] *)

Definition quotechar : ascii := ascii_of_nat 34.
Definition carriage_return : ascii := ascii_of_nat 13.

Fixpoint double_quotes (s : string) : string :=
  match s with
  | EmptyString => EmptyString
  | String c s' =>
      if Ascii.eqb c quotechar then String c (String c (double_quotes s'))
      else String c (double_quotes s')
  end.

(** Minimal quoting: a field that holds the delimiter, the quote character
    or a line break is quoted, its quotes doubled.  (Whether a carriage
    return alone makes a field quoted depends on the version of the csv
    module when the line terminator is a line feed; here it does.) *)
Definition csv_field (s : string) : string :=
  if str_mem comma s || str_mem quotechar s || str_mem newline s
     || str_mem carriage_return s
  then String quotechar (double_quotes s +:+ String quotechar EmptyString)
  else s.

(** The text of a cell; a missing value is written as nothing. *)
Definition str_of_cell (h : Host) (c : cell) : string :=
  match c with
  | Obj (NavigableString s) => s
  | Obj t => str_of_tag h t
  | Num f => if is_nan f then EmptyString else str_of_float h f
  | PyNone => EmptyString
  end.

Fixpoint csv_join (fields : list string) : string :=
  match fields with
  | [] => EmptyString
  | [f] => f
  | f :: fs => f +:+ String comma (csv_join fs)
  end.

(** One record: the quoted fields, comma separated, and a line feed.  A
    record of one empty field is written as two quote characters. *)
Definition csv_line (fields : list string) : string :=
  match fields with
  | [EmptyString] => String quotechar (String quotechar (String newline EmptyString))
  | _ => csv_join (map csv_field fields) +:+ String newline EmptyString
  end.

(** The header: an empty label for the index, then the column names. *)
Definition csv_header (df : DataFrame) : list string :=
  EmptyString :: columns df.

(** The record of row [i]: the index first, then the cells. *)
Definition csv_record (h : Host) (df : DataFrame) (i : nat) : list string :=
  pretty i :: map (str_of_cell h) (row_at df i).

Definition csv_records (h : Host) (df : DataFrame) : list (list string) :=
  csv_header df :: map (csv_record h df) (seq 0 (nrows df)).

Definition to_csv (h : Host) (df : DataFrame) : string :=
  str_join (map csv_line (csv_records h df)).

(** ** The database: sqlite3 as pandas drives it *)

Inductive sqlval :=
  | SqlNull
  | SqlReal (f : float)
  | SqlText (s : string).

(** A table: its column names and its rows in insertion order, each row
    with one value per column. *)
Record Table := mkTable {
  tcolumns : list string;
  trows : list (list sqlval)
}.

(** How sqlite3 binds a cell, as the table gives it back.  A
    NavigableString is a str; an element is of no type that sqlite3 binds;
    NaN is stored as NULL; a REAL column stores a whole number as an
    integer, so that a negative zero comes back as zero. *)
Definition sql_of_cell (c : cell) : result sqlval :=
  match c with
  | Obj (NavigableString s) => Ok (SqlText s)
  | Obj (Tag _ _) => Raise InterfaceError
  | Num f =>
      Ok (if is_nan f then SqlNull
          else if (f =? 0)%float then SqlReal 0%float
          else SqlReal f)
  | PyNone => Ok SqlNull
  end.

(** A row given by column names [cols], laid out along the table's columns;
    a column of the table that the row does not name is NULL. *)
Definition align (cols : list string) (tcols : list string) (row : list sqlval)
  : list sqlval :=
  map (fun c => default SqlNull (assoc c (combine cols row))) tcols.

(** [df.to_sql(name, con, if_exists='append', index=False)] on the tables
    of a database.  A missing table is created with the frame's columns;
    then the rows are inserted after the rows the table has.  Names are
    compared as written, whereas SQLite takes no account of the case of
    ASCII letters: see [same_name].  The exception of a column that the
    table lacks is sqlite3's, which later versions of pandas wrap. *)
Definition to_sql_append (df : DataFrame) (name : string) (db : gmap string Table)
  : result unit * gmap string Table :=
  let t :=
    match db !! name with
    | Some t => t
    | None => {| tcolumns := columns df; trows := [] |}
    end in
  let db1 := <[name := t]> db in
  if forallb (fun c => existsb (String.eqb c) (tcolumns t)) (columns df) then
    match mapM (mapM sql_of_cell) (frame_rows df) with
    | Ok rows =>
        let t' := {| tcolumns := tcolumns t;
                     trows := trows t ++ map (align (columns df) (tcolumns t)) rows |} in
        (Ok tt, <[name := t']> db)
    | Raise e => (Raise e, db1)
    end
  else (Raise OperationalError, db1).

(** *** The one statement the driver issues: [SELECT AVG(col) FROM tab] *)

Fixpoint strip_prefix (p s : string) : option string :=
  match p, s with
  | EmptyString, _ => Some s
  | String a p', String b s' => if Ascii.eqb a b then strip_prefix p' s' else None
  | String _ _, EmptyString => None
  end.

Definition is_ident_char (c : ascii) : bool :=
  let n := nat_of_ascii c in
  ((48 <=? n)%nat && (n <=? 57)%nat) || ((65 <=? n)%nat && (n <=? 90)%nat)
  || ((97 <=? n)%nat && (n <=? 122)%nat) || (n =? 95)%nat.

(** The longest prefix of identifier characters, and what follows it. *)
Fixpoint span_ident (s : string) : string * string :=
  match s with
  | String c s' =>
      if is_ident_char c then let (i, r) := span_ident s' in (String c i, r)
      else (EmptyString, s)
  | EmptyString => (EmptyString, EmptyString)
  end.

(** The column and the table of a statement [SELECT AVG(col) FROM tab]. *)
Definition parse_select_avg (q : string) : option (string * string) :=
  match strip_prefix "SELECT AVG(" q with
  | None => None
  | Some r1 =>
      let (col, r2) := span_ident r1 in
      match strip_prefix ") FROM " r2 with
      | None => None
      | Some r3 =>
          let (tab, r4) := span_ident r3 in
          match col, tab, r4 with
          | String _ _, String _ _, EmptyString => Some (col, tab)
          | _, _, _ => None
          end
      end
  end.

Fixpoint index_of (c : string) (l : list string) : option nat :=
  match l with
  | [] => None
  | x :: l' => if String.eqb x c then Some 0 else S <$> index_of c l'
  end.

(** The values of column [c] of a table, in row order. *)
Definition column_values (t : Table) (c : string) : option (list sqlval) :=
  match index_of c (tcolumns t) with
  | Some i => Some (map (fun r => nth i r SqlNull) (trows t))
  | None => None
  end.

(** A value as a summand of an aggregate; NULL is left out. *)
Definition sql_number (h : Host) (v : sqlval) : option float :=
  match v with
  | SqlNull => None
  | SqlReal f => Some f
  | SqlText s => Some (real_of_text h s)
  end.

Definition float_of_nat (n : nat) : float :=
  SF2Prim (binary_normalize prec emax (Z.of_nat n) 0 false).

(** [AVG]: the sum of the values that are not NULL over their number, in
    floating point; NULL when there is none. *)
Definition sql_avg (h : Host) (vs : list sqlval) : cell :=
  match omap (sql_number h) vs with
  | [] => PyNone
  | xs => Num (fold_left PrimFloat.add xs 0%float / float_of_nat (length xs))
  end.

(** [pd.read_sql(query, con)] on the tables of a database, for the
    statements of the form [SELECT AVG(col) FROM tab], with [col] and
    [tab] looked up as written. *)
Definition read_sql (h : Host) (query : string) (db : gmap string Table)
  : result DataFrame :=
  match parse_select_avg query with
  | None => Raise UnsupportedStatement
  | Some (col, tab) =>
      match db !! tab with
      | None => Raise DatabaseError
      | Some t =>
          match column_values t col with
          | None => Raise DatabaseError
          | Some vs =>
              Ok {| nrows := 1;
                    data := [("AVG(" +:+ col +:+ ")", [sql_avg h vs])] |}
          end
      end
  end.

(** ** The world the program changes *)

(** What [print] writes. *)
Inductive printed :=
  | PStr (s : string)
  | PFrame (df : DataFrame).

(** The state around a run: the number of clock readings so far, the lines
    appended to code_log.txt, the standard output, the text files by path
    (and the paths that cannot be written), the SQLite databases by file
    name, and the connections that are open. *)
Record World := mkWorld {
  clock : nat;
  code_log : list string;
  stdout : list printed;
  files : gmap string string;
  unwritable : gset string;
  databases : gmap string (gmap string Table);
  connections : list string
}.

(** A statement of the program: it changes the world, and returns or
    raises. *)
Definition M (A : Type) : Type := World -> result A * World.

Definition ret {A} (a : A) : M A := fun w => (Ok a, w).

Definition bindM {A B} (m : M A) (k : A -> M B) : M B :=
  fun w =>
    match m w with
    | (Ok a, w') => k a w'
    | (Raise e, w') => (Raise e, w')
    end.

Definition lift {A} (r : result A) : M A := fun w => (r, w).

Notation "'let+' x ':=' m 'in' k" := (bindM m (fun x => k))
  (at level 10, x pattern, m at level 100, k at level 200).

(** ** log_progress *)

(** One line [timestamp : message] appended to code_log.txt. *)
Definition log_progress (h : Host) (message : string) : M unit :=
  fun w =>
    let now := clock w in
    let line := timestamp h now +:+ " : " +:+ message +:+ String newline EmptyString in
    (Ok tt,
     {| clock := S now;
        code_log := code_log w ++ [line];
        stdout := stdout w;
        files := files w;
        unwritable := unwritable w;
        databases := databases w;
        connections := connections w |}).

Definition print (p : printed) : M unit :=
  fun w =>
    (Ok tt,
     {| clock := clock w;
        code_log := code_log w;
        stdout := stdout w ++ [p];
        files := files w;
        unwritable := unwritable w;
        databases := databases w;
        connections := connections w |}).

(** ** load_to_csv *)

(** [df.to_csv(output_path)]: the file at the path is the text of the
    frame, whatever was there. *)
Definition load_to_csv (h : Host) (df : DataFrame) (output_path : string) : M unit :=
  fun w =>
    if decide (output_path ∈ unwritable w) then (Raise (write_error h output_path), w)
    else
      (Ok tt,
       {| clock := clock w;
          code_log := code_log w;
          stdout := stdout w;
          files := <[output_path := to_csv h df]> (files w);
          unwritable := unwritable w;
          databases := databases w;
          connections := connections w |}).

(** ** The connection *)

(** [sqlite3.connect(db_name)]: the database file is created when missing;
    the connection is known by the file's name. *)
Definition connect (db_name : string) : M string :=
  fun w =>
    let dbs :=
      match databases w !! db_name with
      | Some _ => databases w
      | None => <[db_name := ∅]> (databases w)
      end in
    (Ok db_name,
     {| clock := clock w;
        code_log := code_log w;
        stdout := stdout w;
        files := files w;
        unwritable := unwritable w;
        databases := dbs;
        connections := db_name :: connections w |}).

Fixpoint remove_first (c : string) (l : list string) : list string :=
  match l with
  | [] => []
  | x :: l' => if String.eqb x c then l' else x :: remove_first c l'
  end.

(** [sql_connection.close()]. *)
Definition close (sql_connection : string) : M unit :=
  fun w =>
    (Ok tt,
     {| clock := clock w;
        code_log := code_log w;
        stdout := stdout w;
        files := files w;
        unwritable := unwritable w;
        databases := databases w;
        connections := remove_first sql_connection (connections w) |}).

(** The tables behind an open connection. *)
Definition tables_of (sql_connection : string) (w : World) : result (gmap string Table) :=
  if existsb (String.eqb sql_connection) (connections w) then
    match databases w !! sql_connection with
    | Some db => Ok db
    | None => Raise ProgrammingError
    end
  else Raise ProgrammingError.

(** ** load_to_db *)

Definition load_to_db (df : DataFrame) (sql_connection : string) (table_name : string)
  : M unit :=
  fun w =>
    match tables_of sql_connection w with
    | Raise e => (Raise e, w)
    | Ok db =>
        let (r, db') := to_sql_append df table_name db in
        (r,
         {| clock := clock w;
            code_log := code_log w;
            stdout := stdout w;
            files := files w;
            unwritable := unwritable w;
            databases := <[sql_connection := db']> (databases w);
            connections := connections w |})
    end.

(** ** run_query *)

Definition run_query (h : Host) (query_statement : string) (sql_connection : string)
  : M unit :=
  let+ _ := print (PStr query_statement) in
  let+ query_output :=
    (fun w => (let* db := tables_of sql_connection w in read_sql h query_statement db, w)) in
  print (PFrame query_output).

(** ** The driver *)

(** The content of env_variables.json. *)
Record Config := mkConfig {
  cfg_url : string;
  cfg_table_attributes : list string;
  cfg_csv_path : string;
  cfg_output_path : string;
  cfg_db_name : string;
  cfg_table_name : string
}.

(** The block under [if __name__ == '__main__'], after the configuration
    is read. *)
Definition main (h : Host) (cfg : Config) : M unit :=
  let url := cfg_url cfg in
  let table_attributes := cfg_table_attributes cfg in
  let csv_path := cfg_csv_path cfg in
  let output_path := cfg_output_path cfg in
  let db_name := cfg_db_name cfg in
  let table_name := cfg_table_name cfg in
  let+ _ := log_progress h "Preliminaries complete. Initiating ETL process" in
  let+ df := lift (extract h url table_attributes) in
  let+ _ := print (PFrame df) in
  let+ _ := log_progress h "Data extraction complete. Initiating Transformation process" in
  let+ df := lift (transform h df csv_path) in
  let+ _ := print (PFrame df) in
  let+ _ := log_progress h "Data transformation complete. Initiating loading process" in
  let+ _ := load_to_csv h df output_path in
  let+ _ := log_progress h "Data saved to CSV file" in
  let+ sql_connection := connect db_name in
  let+ _ := log_progress h "SQL Connection initiated." in
  let+ _ := load_to_db df sql_connection table_name in
  let+ _ := log_progress h "Data loaded to Database as table. Running the query" in
  let query_statement := "SELECT AVG(MC_GBP_Billion) FROM Largest_banks"%string in
  let+ _ := run_query h query_statement sql_connection in
  let+ _ := log_progress h "Process Complete." in
  close sql_connection.

(** ** Notions used to state the properties *)

(** The part of [s] before the first [c]; all of [s] when it holds no
    [c]. *)
Fixpoint str_before (c : ascii) (s : string) : string :=
  match s with
  | EmptyString => EmptyString
  | String a s' => if Ascii.eqb a c then EmptyString else String a (str_before c s')
  end.

(** The string a raw metric is cleaned to before it is read as a float. *)
Definition cleaned (s : string) : string :=
  str_remove comma (str_before newline s).

(** The names of the four columns that [transform] writes. *)
Definition USD : string := "MC_USD_Billion".
Definition GBP : string := "MC_GBP_Billion".
Definition EUR : string := "MC_EUR_Billion".
Definition INR : string := "MC_INR_Billion".

(** The columns of a frame that [extract] has filled with [n] rows: the
    requested names, then, once there is a row, the two fixed keys that are
    not among them. *)
Definition extracted_columns (attrs : list string) (n : nat) : list string :=
  attrs ++
  (if (n =? 0)%nat then []
   else List.filter (fun c => negb (existsb (String.eqb c) attrs))
          ["Name"; "MC_USD_Billion"]%string).



(** The rows of table [name], none when there is no such table. *)
Definition table_rows (db : gmap string Table) (name : string) : list (list sqlval) :=
  match db !! name with
  | Some t => trows t
  | None => []
  end.

(** The rows of table [name] behind connection [con]. *)
Definition stored_rows (w : World) (con name : string) : list (list sqlval) :=
  match databases w !! con with
  | Some db => table_rows db name
  | None => []
  end.




(** The test of the loop of [extract]: the row has a cell. *)
Definition has_cell (row : PageElement) : bool :=
  negb (length (find_all "td" row) =? 0)%nat.

(** The node that [extract] takes as the name of a row: the first child of
    the second link of the second cell. *)
Definition row_name (row : PageElement) : option PageElement :=
  match find_all "td" row !! 1 with
  | Some c1 =>
      match find_all "a" c1 !! 1 with
      | Some a => contents a !! 0
      | None => None
      end
  | None => None
  end.

(** The node that [extract] takes as the metric of a row: the first child
    of the third cell. *)
Definition row_metric (row : PageElement) : option PageElement :=
  match find_all "td" row !! 2 with
  | Some c2 => contents c2 !! 0
  | None => None
  end.

(** What [extract] has added to column [c] after taking rows with the
    given names and metrics: the names under Name, the metrics under
    MC_USD_Billion, NaN under every other column. *)
Definition added_cells (c : string) (names metrics : list PageElement) : list cell :=
  if String.eqb "Name" c then map Obj names
  else if String.eqb "MC_USD_Billion" c then map Obj metrics
  else replicate (length names) NaN.

(** The first of the rates GBP, EUR, INR that a rate table lacks, in the
    order [transform] looks them up. *)
Definition first_missing_rate (d : gmap string float) : option string :=
  List.find (fun code => bool_decide (d !! code = None)) ["GBP"; "EUR"; "INR"]%string.

(** A cell that holds a text node. *)
Definition is_text (c : cell) : Prop := exists s, c = Obj (NavigableString s).



(** The nodes that the loop of [extract] takes from [rows], as names and
    as metrics, are text nodes. *)
Definition takes_text (rows : list PageElement) : Prop :=
  Forall (fun row =>
            forall e, row_name row = Some e \/ row_metric row = Some e -> is_text (Obj e))
         (List.filter has_cell rows).





(** The statement that the driver runs. *)
Definition query_statement : string := "SELECT AVG(MC_GBP_Billion) FROM Largest_banks".

(** The tables of the database file [name]: none when there is no such
    file. *)
Definition tables_at (w : World) (name : string) : gmap string Table :=
  default ∅ (databases w !! name).

(** *** Float literals

    The ASCII strings that [float] accepts, after Python's grammar:
    [floatvalue ::= [sign] (floatnumber | infinity | nan)],
    [floatnumber ::= number [exponent]],
    [number ::= [digitpart] "." digitpart | digitpart ["."]],
    [digitpart ::= digit (["_"] digit)*],
    [exponent ::= ("e" | "E") [sign] digitpart]. *)
Module FloatGrammar.

Inductive digit_tail : string -> Prop :=
  | tail_nil : digit_tail EmptyString
  | tail_digit c s :
      PyFloat.is_digit c = true -> digit_tail s -> digit_tail (String c s)
  | tail_underscore c s :
      PyFloat.is_digit c = true -> digit_tail s ->
      digit_tail (String "_" (String c s)).

Inductive digit_part : string -> Prop :=
  | digits c s : PyFloat.is_digit c = true -> digit_tail s -> digit_part (String c s).

Inductive sign_part : string -> Prop :=
  | no_sign : sign_part EmptyString
  | plus : sign_part "+"
  | minus : sign_part "-".

Inductive number : string -> Prop :=
  | fraction i f :
      i = EmptyString \/ digit_part i -> digit_part f -> number (i +:+ "." +:+ f)
  | integer i : digit_part i -> number i
  | integer_dot i : digit_part i -> number (i +:+ ".").

Inductive exponent_part : string -> Prop :=
  | exponent_of c sg d :
      c = "e"%char \/ c = "E"%char -> sign_part sg -> digit_part d ->
      exponent_part (String c (sg +:+ d)).

Inductive float_number : string -> Prop :=
  | float_number_of n e :
      number n -> e = EmptyString \/ exponent_part e -> float_number (n +:+ e).

(** "inf", "infinity" and "nan", in any case. *)
Definition special (s : string) : Prop :=
  PyFloat.str_lower s = "inf"%string \/ PyFloat.str_lower s = "infinity"%string
  \/ PyFloat.str_lower s = "nan"%string.

Inductive float_value : string -> Prop :=
  | float_value_of sg t :
      sign_part sg -> float_number t \/ special t -> float_value (sg +:+ t).

(** How [float] reads a character of a str: an ASCII character other than
    DEL as itself, a white space outside ASCII as a space, a decimal digit
    outside ASCII as the ASCII digit of its value.  No other character is
    read. *)
Inductive reads : N -> ascii -> Prop :=
  | reads_ascii c : (c < 127)%N -> reads c (ascii_of_N c)
  | reads_space c : In c Unicode.white_space -> reads c " "
  | reads_digit z d :
      In z Unicode.decimal_zeros -> (d < 10)%N -> reads (z + d) (ascii_of_N (48 + d)).

Inductive reading : list N -> string -> Prop :=
  | reading_nil : reading [] EmptyString
  | reading_cons c a cps t :
      reads c a -> reading cps t -> reading (c :: cps) (String a t).

(** A str is numeric when its characters are read, one by one, as a
    string that is a float literal once the white space around it is
    dropped. *)
Definition numeric (s : string) : Prop :=
  exists cps t,
    code_points s = Some cps /\ reading cps t /\ float_value (PyFloat.strip t).

(** What may follow a digit part: nothing, or a character that is neither
    a digit nor an underscore. *)
Definition ends_digits (r : string) : Prop :=
  match r with
  | EmptyString => True
  | String c _ => PyFloat.is_digit c = false /\ c <> "_"%char
  end.

End FloatGrammar.

(** ** A concrete run: one bank, three rates *)

Module Scenario.

Definition line_feed : string := String newline EmptyString.

(** A table row: rank, a name cell with two links, the capitalisation
    followed by a line feed. *)
Definition bank_row : PageElement :=
  Tag "tr"
    [ Tag "td" [NavigableString "1"];
      Tag "td" [Tag "a" [Tag "img" []]; Tag "a" [NavigableString "Bank A"]];
      Tag "td" [NavigableString ("100,000" +:+ line_feed)] ].

Definition header_row : PageElement :=
  Tag "tr" [Tag "th" [NavigableString "Rank"]; Tag "th" [NavigableString "Bank name"]].

Definition page_of (rows : list PageElement) : PageElement :=
  Tag "[document]" [Tag "html" [Tag "body" [Tag "table" [Tag "tbody" rows]]]].

Definition page : PageElement := page_of [header_row; bank_row].



Definition rates : gmap string float :=
  <["GBP"%string := 0.8%float]>
    (<["EUR"%string := 0.9%float]> (<["INR"%string := 80%float]> ∅)).

(** [repr] of a float whose value is a whole number (below 1e16), as
    Python prints it; the scenario prints no other float. *)
Definition repr_whole (f : float) : string :=
  match Prim2SF f with
  | S754_zero s => if s then "-0.0" else "0.0"
  | S754_finite s m e =>
      let n := if (0 <=? e)%Z then (Zpos m * 2 ^ e)%Z else (Zpos m / 2 ^ (- e))%Z in
      (if s then "-" else EmptyString) +:+ pretty n +:+ ".0"
  | S754_infinity s => if s then "-inf" else "inf"
  | S754_nan => "nan"
  end.

(** A host that serves [p] at every URL and [rates] at every path. *)
Definition host_of (p : PageElement) : Host :=
  {| soup_of := fun _ => Ok p;
     rates_of := fun _ => Ok rates;
     timestamp := fun n => "2024-Jan-01-00:00:0" +:+ pretty n;
     str_of_float := repr_whole;
     str_of_tag := fun _ => "<a></a>"%string;
     real_of_text := fun _ => 0%float;
     write_error := fun _ => PermissionError |}.

Definition host : Host := host_of page.

Definition config (table_name : string) (attributes : list string) : Config :=
  {| cfg_url := "https://example.org/banks";
     cfg_table_attributes := attributes;
     cfg_csv_path := "exchange_rate.csv";
     cfg_output_path := "Largest_banks_data.csv";
     cfg_db_name := "Banks.db";
     cfg_table_name := table_name |}.

Definition standard_attributes : list string := ["Name"; "MC_USD_Billion"]%string.

(** Nothing logged, printed or stored yet. *)
Definition fresh : World :=
  {| clock := 0; code_log := []; stdout := []; files := ∅; unwritable := ∅;
     databases := ∅; connections := [] |}.

(** The world once the database file is opened. *)
Definition connected : World := snd (connect "Banks.db" fresh).

(** The world after one and after two loads of [df] into Largest_banks. *)
Definition loaded_once (df : DataFrame) : World :=
  snd (load_to_db df "Banks.db" "Largest_banks" connected).
Definition loaded_twice (df : DataFrame) : World :=
  snd (load_to_db df "Banks.db" "Largest_banks" (loaded_once df)).

(** The frame the scenario's page is extracted to. *)
Definition extracted : DataFrame :=
  {| nrows := 1;
     data := [ ("Name"%string, [Obj (NavigableString "Bank A")]);
               ("MC_USD_Billion"%string,
                [Obj (NavigableString ("100,000" +:+ line_feed))]) ] |}.

(** The frame the scenario's page is extracted to when the columns Bank
    and Cap are requested. *)
Definition extracted_bank_cap : DataFrame :=
  {| nrows := 1;
     data := [ ("Bank"%string, [NaN]); ("Cap"%string, [NaN]);
               ("Name"%string, [Obj (NavigableString "Bank A")]);
               ("MC_USD_Billion"%string,
                [Obj (NavigableString ("100,000" +:+ line_feed))]) ] |}.

(** A page with no table, and a page whose table has a header only. *)
Definition page_without_table : PageElement :=
  Tag "[document]" [Tag "html" [Tag "body" [Tag "p" [NavigableString "No data"]]]].
Definition page_header_only : PageElement := page_of [header_row].

(** A host whose reference file names no currency. *)
Definition host_without_rates : Host :=
  {| soup_of := fun _ => Ok page_header_only;
     rates_of := fun _ => Ok ∅;
     timestamp := fun n => pretty n;
     str_of_float := repr_whole;
     str_of_tag := fun _ => "<a></a>"%string;
     real_of_text := fun _ => 0%float;
     write_error := fun _ => PermissionError |}.


(** A frame whose metric is no number. *)
Definition extracted_not_numeric : DataFrame :=
  {| nrows := 2;
     data := [ ("Name"%string,
                [Obj (NavigableString "Bank A"); Obj (NavigableString "Bank B")]);
               ("MC_USD_Billion"%string,
                [Obj (NavigableString "100,000"); Obj (NavigableString "n/a")]) ] |}.

(** The frame the scenario ends with. *)
Definition transformed : DataFrame :=
  {| nrows := 1;
     data := [ ("Name"%string, [Obj (NavigableString "Bank A")]);
               ("MC_USD_Billion"%string, [Num 100000%float]);
               ("MC_GBP_Billion"%string, [Num 80000%float]);
               ("MC_EUR_Billion"%string, [Num 90000%float]);
               ("MC_INR_Billion"%string, [Num 8000000%float]) ] |}.

(** The whole run, from a fresh world, loading into [table_name]. *)
Definition run (table_name : string) : result unit * World :=
  main host (config table_name standard_attributes) fresh.

(** What the query of the scenario prints last. *)
Definition query_output : DataFrame :=
  {| nrows := 1; data := [("AVG(MC_GBP_Billion)"%string, [Num 80000%float])] |}.

Definition bank_record : list sqlval :=
  [SqlText "Bank A"; SqlReal 100000; SqlReal 80000; SqlReal 90000; SqlReal 8000000].

End Scenario.

(** * Properties *)

(** ** The result monad and Python helpers *)

Lemma bind_Ok {A B} (m : result A) (k : A -> result B) (b : B) :
  bind m k = Ok b -> exists a, m = Ok a /\ k a = Ok b.
Proof. destruct m as [a|e]; simpl; [eauto | discriminate]. Qed.

Lemma mapM_length {A B} (f : A -> result B) (l : list A) (l' : list B) :
  mapM f l = Ok l' -> length l' = length l.
Proof.
  revert l'. induction l as [|x l IH]; simpl; intros l' H.
  - injection H as <-. reflexivity.
  - apply bind_Ok in H as (y & _ & H). apply bind_Ok in H as (ys & Hys & H).
    injection H as <-. simpl. f_equal. auto.
Qed.

Lemma mapM_lookup {A B} (f : A -> result B) (l : list A) (l' : list B) i x :
  mapM f l = Ok l' -> l !! i = Some x -> exists y, l' !! i = Some y /\ f x = Ok y.
Proof.
  revert l' i. induction l as [|a l IH]; simpl; intros l' i H Hi; [discriminate|].
  apply bind_Ok in H as (y & Hy & H). apply bind_Ok in H as (ys & Hys & H).
  injection H as <-. destruct i as [|i]; simpl in *.
  - injection Hi as ->. eauto.
  - eauto.
Qed.

Lemma py_index_Ok {A} (l : list A) i x : py_index l i = Ok x <-> l !! i = Some x.
Proof. unfold py_index. destruct (l !! i); split; congruence. Qed.


(** ** Strings *)

Lemma str_split_cons sep s : exists seg rest, str_split sep s = seg :: rest.
Proof.
  induction s as [|c s (seg & rest & IH)]; simpl; [eauto|].
  destruct (Ascii.eqb c sep); [eauto|]. rewrite IH. eauto.
Qed.

(** The first segment of a split is what stands before the first
    separator. *)
Lemma str_split_head sep s :
  py_index (str_split sep s) 0 = Ok (str_before sep s).
Proof.
  induction s as [|c s IH]; simpl; [reflexivity|].
  destruct (Ascii.eqb c sep); [reflexivity|].
  destruct (str_split sep s) as [|seg rest]; [discriminate|].
  unfold py_index in *. simpl in *. congruence.
Qed.

Lemma str_join_cons_char c seg rest :
  str_join (String c seg :: rest) = String c (str_join (seg :: rest)).
Proof. reflexivity. Qed.

(** Splitting at a character and joining the segments drops that
    character and nothing else. *)
Lemma str_join_split sep s : str_join (str_split sep s) = str_remove sep s.
Proof.
  induction s as [|c s IH]; simpl; [reflexivity|].
  destruct (Ascii.eqb c sep); [exact IH|].
  destruct (str_split_cons sep s) as (seg & rest & E). rewrite E in *.
  rewrite str_join_cons_char. congruence.
Qed.

Lemma str_remove_mem c s : str_mem c (str_remove c s) = false.
Proof.
  induction s as [|a s IH]; simpl; [reflexivity|].
  destruct (Ascii.eqb a c) eqn:E; simpl; [exact IH|]. rewrite E. exact IH.
Qed.

Lemma str_before_mem c s : str_mem c (str_before c s) = false.
Proof.
  induction s as [|a s IH]; simpl; [reflexivity|].
  destruct (Ascii.eqb a c) eqn:E; simpl; [reflexivity|]. rewrite E. exact IH.
Qed.

(** ** extract: failures *)

(** Every failure of a turn of the loop is an index out of range. *)
Lemma extract_row_raise row df e : extract_row row df = Raise e -> e = IndexError.
Proof.
  unfold extract_row, py_index.
  destruct (negb _); [|discriminate].
  repeat (match goal with
          | |- context [?l !! ?i] => destruct (l !! i)
          end; simpl; try congruence).
Qed.

Lemma extract_rows_raise rows df e : extract_rows rows df = Raise e -> e = IndexError.
Proof.
  revert df. induction rows as [|row rows IH]; simpl; intros df H; [discriminate|].
  destruct (extract_row row df) as [df'|e'] eqn:E; simpl in H.
  - eauto.
  - injection H as <-. eauto using extract_row_raise.
Qed.










(** ** Frames *)

Lemma assoc_elem_of {A} k (l : list (string * A)) v : assoc k l = Some v -> (k, v) ∈ l.
Proof.
  induction l as [|[k' v'] l IH]; simpl; [discriminate|].
  destruct (String.eqb k' k) eqn:E.
  - apply String.eqb_eq in E as ->. intros [= ->]. left.
  - intros H. right. auto.
Qed.

Lemma column_or_nan_length df c :
  wf_frame df -> length (column_or_nan df c) = nrows df.
Proof.
  intros Hwf. unfold column_or_nan. destruct (assoc c (data df)) as [l|] eqn:E.
  - apply assoc_elem_of in E. unfold wf_frame in Hwf. rewrite Forall_forall in Hwf.
    exact (Hwf _ E).
  - apply length_replicate.
Qed.

Lemma concat_columns df df1 :
  columns (concat df df1)
  = columns df ++ List.filter (fun c => negb (has_column df c)) (columns df1).
Proof.
  unfold concat, columns at 1. simpl. rewrite map_map. simpl. apply map_id.
Qed.

Lemma concat_nrows df df1 : nrows (concat df df1) = nrows df + nrows df1.
Proof. reflexivity. Qed.

Lemma concat_wf df df1 : wf_frame df -> wf_frame df1 -> wf_frame (concat df df1).
Proof.
  intros H H1. unfold wf_frame, concat. simpl. apply Forall_map, Forall_forall.
  intros c _. simpl. rewrite length_app, !column_or_nan_length by assumption.
  reflexivity.
Qed.

Lemma empty_frame_wf names : wf_frame (empty_frame names).
Proof. unfold wf_frame, empty_frame. simpl. apply Forall_map, Forall_forall. reflexivity. Qed.

Lemma frame_of_dict_wf d : wf_frame (frame_of_dict d).
Proof. unfold wf_frame, frame_of_dict. simpl. apply Forall_map, Forall_forall. reflexivity. Qed.

(** ** extract: the frame it returns *)

(** A turn of the loop passes over the row or adds one row built from the
    two fixed keys [Name] and [MC_USD_Billion]. *)
Lemma extract_row_Ok row df df' :
  extract_row row df = Ok df' ->
  df' = df
  \/ exists name mc,
       df' = concat df (frame_of_dict [("Name"%string, Obj name);
                                       ("MC_USD_Billion"%string, Obj mc)]).
Proof.
  unfold extract_row. destruct (negb _); [|intros [= <-]; auto].
  intros H. right.
  apply bind_Ok in H as (c1 & _ & H). apply bind_Ok in H as (a & _ & H).
  apply bind_Ok in H as (name & _ & H). apply bind_Ok in H as (c2 & _ & H).
  apply bind_Ok in H as (mc & _ & H). injection H as <-. eauto.
Qed.

Lemma filter_absent_twice (attrs : list string) (a b : string) :
  List.filter
    (fun c => negb (existsb (String.eqb c)
       (attrs ++ List.filter (fun c => negb (existsb (String.eqb c) attrs)) [a; b])))
    [a; b] = [].
Proof.
  simpl.
  destruct (existsb (String.eqb a) attrs) eqn:Ea;
    destruct (existsb (String.eqb b) attrs) eqn:Eb;
    simpl; rewrite !existsb_app, ?Ea, ?Eb; simpl;
    rewrite ?String.eqb_refl, ?orb_true_r; reflexivity.
Qed.

Lemma extract_row_invariant attrs row df df' :
  extract_row row df = Ok df' ->
  wf_frame df /\ columns df = extracted_columns attrs (nrows df) ->
  wf_frame df' /\ columns df' = extracted_columns attrs (nrows df').
Proof.
  intros H [Hwf Hcols]. apply extract_row_Ok in H as [-> | (name & mc & ->)]; [auto|].
  split; [auto using concat_wf, frame_of_dict_wf|].
  rewrite concat_columns, concat_nrows.
  change (columns (frame_of_dict _)) with ["Name"; "MC_USD_Billion"]%string.
  change (nrows (frame_of_dict _)) with 1.
  unfold has_column. rewrite Hcols. unfold extracted_columns.
  replace (nrows df + 1 =? 0)%nat with false by (symmetry; apply Nat.eqb_neq; lia).
  destruct (nrows df =? 0)%nat.
  - rewrite app_nil_r. reflexivity.
  - rewrite filter_absent_twice, app_nil_r. reflexivity.
Qed.

Lemma extract_rows_invariant attrs rows df df' :
  extract_rows rows df = Ok df' ->
  wf_frame df /\ columns df = extracted_columns attrs (nrows df) ->
  wf_frame df' /\ columns df' = extracted_columns attrs (nrows df').
Proof.
  revert df. induction rows as [|row rows IH]; simpl; intros df H Hinv.
  - injection H as <-. exact Hinv.
  - apply bind_Ok in H as (df1 & H1 & H). eauto using extract_row_invariant.
Qed.

(** The frame that [extract] returns is well formed, and its columns are
    the requested names followed, when it has a row, by those of [Name] and
    [MC_USD_Billion] that were not requested. *)
Lemma extract_frame h url attrs df :
  extract h url attrs = Ok df ->
  wf_frame df /\ columns df = extracted_columns attrs (nrows df).
Proof.
  unfold extract. intros H.
  apply bind_Ok in H as (data & _ & H). apply bind_Ok in H as (t0 & _ & H).
  apply (extract_rows_invariant attrs) in H; [exact H|].
  split; [apply empty_frame_wf|].
  unfold extracted_columns, empty_frame, columns. simpl.
  rewrite map_map, app_nil_r. simpl. apply map_id.
Qed.

(** C1. With requested columns [Bank] and [Cap], and a page whose table
    has one qualifying row, [extract] returns a frame with the four columns
    Bank, Cap, Name, MC_USD_Billion: the scraped values stand under the two
    fixed keys, and the requested columns hold NaN. *)
Theorem extract_uses_fixed_keys :
  exists df,
    extract Scenario.host "u" ["Bank"; "Cap"]%string = Ok df
    /\ columns df = ["Bank"; "Cap"; "Name"; "MC_USD_Billion"]%string
    /\ columns df <> ["Bank"; "Cap"]%string
    /\ get_column df "Bank" = Ok [NaN]
    /\ get_column df "Cap" = Ok [NaN]
    /\ get_column df "Name" = Ok [Obj (NavigableString "Bank A")].
Proof.
  eexists. split; [vm_compute; reflexivity|].
  repeat split; try reflexivity. discriminate.
Qed.

(** ** Columns: reading and assigning *)

Lemma assoc_replace_eq c l d : assoc c (replace_column c l d) = Some l.
Proof.
  induction d as [|[k v] d IH]; simpl.
  - rewrite String.eqb_refl. reflexivity.
  - destruct (String.eqb k c) eqn:E; simpl; rewrite E; [reflexivity | exact IH].
Qed.

Lemma assoc_replace_ne c c' l d :
  c <> c' -> assoc c' (replace_column c l d) = assoc c' d.
Proof.
  intros Hne. induction d as [|[k v] d IH]; simpl.
  - apply String.eqb_neq in Hne. rewrite Hne. reflexivity.
  - destruct (String.eqb k c) eqn:E; simpl.
    + apply String.eqb_eq in E as ->. apply String.eqb_neq in Hne. rewrite Hne.
      reflexivity.
    + destruct (String.eqb k c'); [reflexivity | exact IH].
Qed.

(** Assigning a column keeps the names in place, and adds the name at the
    end when it is new. *)
Lemma replace_column_names c l d :
  map fst (replace_column c l d)
  = map fst d ++ (if existsb (String.eqb c) (map fst d) then [] else [c]).
Proof.
  induction d as [|[k v] d IH]; simpl; [reflexivity|].
  rewrite (String.eqb_sym c k). destruct (String.eqb k c) eqn:E; simpl.
  - rewrite app_nil_r. reflexivity.
  - rewrite IH. reflexivity.
Qed.

Lemma replace_column_names_present c l d v :
  assoc c d = Some v -> map fst (replace_column c l d) = map fst d.
Proof.
  induction d as [|[k v'] d IH]; simpl; [discriminate|].
  destruct (String.eqb k c); simpl; [reflexivity|]. intros H. rewrite IH; auto.
Qed.

Lemma replace_column_wf c l d n :
  length l = n ->
  Forall (fun kv => length (snd kv) = n) d ->
  Forall (fun kv : string * list cell => length (snd kv) = n) (replace_column c l d).
Proof.
  intros Hl. induction 1 as [|[k v] d Hk Hd IH]; simpl.
  - repeat constructor. exact Hl.
  - destruct (String.eqb k c); constructor; auto.
Qed.

Lemma set_column_Ok df c l df' :
  set_column df c l = Ok df' ->
  length l = nrows df /\ nrows df' = nrows df
  /\ data df' = replace_column c l (data df).
Proof.
  unfold set_column. destruct (length l =? nrows df)%nat eqn:E; [|discriminate].
  apply Nat.eqb_eq in E. intros [= <-]. auto.
Qed.

Lemma get_column_Ok df c l : get_column df c = Ok l <-> assoc c (data df) = Some l.
Proof. unfold get_column. destruct (assoc c (data df)); split; congruence. Qed.

(** ** transform *)

(** Cleaning a text cell: the part before the first line feed, its commas
    taken out, read as a float. *)
Lemma clean_text s :
  clean (Obj (NavigableString s)) = PyFloat.float (cleaned s).
Proof.
  unfold clean, cleaned. rewrite str_split_head. simpl.
  rewrite str_join_split. reflexivity.
Qed.


Lemma converted_length d code xs out :
  converted d code xs = Ok out -> length out = length xs.
Proof. apply mapM_length. Qed.

(** What a run of [transform] that returns has done, step by step. *)
Lemma transform_Ok h df path df' :
  transform h df path = Ok df' ->
  exists d raw usd gbp eur rup,
    rates_of h path = Ok d
    /\ get_column df USD = Ok raw
    /\ mapM clean raw = Ok usd
    /\ length raw = nrows df
    /\ converted d "GBP" (map Num usd) = Ok gbp
    /\ converted d "EUR" (map Num usd) = Ok eur
    /\ converted d "INR" (map Num usd) = Ok rup
    /\ nrows df' = nrows df
    /\ data df' =
         replace_column INR rup
           (replace_column EUR eur
              (replace_column GBP gbp
                 (replace_column USD (map Num usd) (data df)))).
Proof.
  unfold transform. intros H.
  apply bind_Ok in H as (d & Hd & H).
  apply bind_Ok in H as (raw & Hraw & H).
  apply bind_Ok in H as (usd & Husd & H).
  apply bind_Ok in H as (df1 & H1 & H).
  apply set_column_Ok in H1 as (Hlen & Hn1 & Hd1).
  apply bind_Ok in H as (usd1 & Hu1 & H).
  apply get_column_Ok in Hu1. rewrite Hd1, assoc_replace_eq in Hu1.
  injection Hu1 as <-.
  apply bind_Ok in H as (gbp & Hgbp & H).
  apply bind_Ok in H as (df2 & H2 & H).
  apply set_column_Ok in H2 as (_ & Hn2 & Hd2).
  apply bind_Ok in H as (usd2 & Hu2 & H).
  apply get_column_Ok in Hu2.
  rewrite Hd2, assoc_replace_ne, Hd1, assoc_replace_eq in Hu2 by discriminate.
  injection Hu2 as <-.
  apply bind_Ok in H as (eur & Heur & H).
  apply bind_Ok in H as (df3 & H3 & H).
  apply set_column_Ok in H3 as (_ & Hn3 & Hd3).
  apply bind_Ok in H as (usd3 & Hu3 & H).
  apply get_column_Ok in Hu3.
  rewrite Hd3, assoc_replace_ne, Hd2, assoc_replace_ne, Hd1, assoc_replace_eq
    in Hu3 by discriminate.
  injection Hu3 as <-.
  apply bind_Ok in H as (rup & Hrup & H).
  apply set_column_Ok in H as (_ & Hn4 & Hd4).
  exists d, raw, usd, gbp, eur, rup.
  rewrite length_map in Hlen. pose proof (mapM_length _ _ _ Husd) as Hraw_len.
  repeat split; try assumption; try congruence.
  unfold USD, GBP, EUR, INR. congruence.
Qed.

(** The four columns of the returned frame that [transform] writes. *)
Lemma transform_written df' usd gbp eur rup d0 :
  data df' =
    replace_column INR rup
      (replace_column EUR eur
         (replace_column GBP gbp (replace_column USD usd d0))) ->
  get_column df' USD = Ok usd /\ get_column df' GBP = Ok gbp
  /\ get_column df' EUR = Ok eur /\ get_column df' INR = Ok rup.
Proof.
  intros Hd. repeat split; apply get_column_Ok; rewrite Hd.
  - rewrite !assoc_replace_ne by discriminate. apply assoc_replace_eq.
  - rewrite !assoc_replace_ne by discriminate. apply assoc_replace_eq.
  - rewrite !assoc_replace_ne by discriminate. apply assoc_replace_eq.
  - apply assoc_replace_eq.
Qed.

(** ** Reading floats: what [float] accepts is a float literal *)

Section FloatSound.
Import PyFloat FloatGrammar.

Lemma app_cons_str x (a b : string) : String x a +:+ b = String x (a +:+ b).
Proof. reflexivity. Qed.

Lemma app_assoc_str (a b c : string) : (a +:+ b) +:+ c = a +:+ (b +:+ c).
Proof.
  induction a as [|x a IH]; [reflexivity|]. rewrite !app_cons_str. now rewrite IH.
Qed.

Lemma app_nil_r_str (a : string) : a +:+ EmptyString = a.
Proof.
  induction a as [|x a IH]; [reflexivity|]. rewrite app_cons_str. now rewrite IH.
Qed.

Lemma digits_tail_sound n : forall s ds r,
  String.length s <= n ->
  digits_tail s = (ds, r) -> exists p, s = p +:+ r /\ digit_tail p.
Proof.
  induction n as [|n IH]; intros s ds r Hlen H.
  - destruct s; [|simpl in Hlen; lia]. injection H as <- <-.
    exists EmptyString. split; [reflexivity | constructor].
  - destruct s as [|c s]; simpl in H.
    { injection H as <- <-. exists EmptyString. split; [reflexivity | constructor]. }
    simpl in Hlen. destruct (is_digit c) eqn:Hc.
    + destruct (digits_tail s) as [ds' r'] eqn:E. injection H as <- <-.
      destruct (IH s ds' r' ltac:(lia) E) as (p & -> & Hp).
      exists (String c p). split; [reflexivity | now constructor].
    + destruct (Ascii.eqb c "_") eqn:Hu;
        [|injection H as <- <-; exists EmptyString; split; [reflexivity | constructor]].
      apply Ascii.eqb_eq in Hu as ->.
      destruct s as [|d s];
        [injection H as <- <-; exists EmptyString; split; [reflexivity | constructor]|].
      destruct (is_digit d) eqn:Hd;
        [|injection H as <- <-; exists EmptyString; split; [reflexivity | constructor]].
      destruct (digits_tail s) as [ds' r'] eqn:E. injection H as <- <-.
      simpl in Hlen. destruct (IH s ds' r' ltac:(lia) E) as (p & -> & Hp).
      exists (String "_" (String d p)). split; [reflexivity | now constructor].
Qed.

(** [digitpart] reads a digit part when it reads a digit, and nothing
    otherwise. *)
Lemma digitpart_sound s ds r :
  digitpart s = (ds, r) ->
  (ds = [] /\ r = s) \/ (ds <> [] /\ exists p, s = p +:+ r /\ digit_part p).
Proof.
  unfold digitpart. destruct s as [|c s]; [intros [= <- <-]; auto|].
  destruct (is_digit c) eqn:Hc; [|intros [= <- <-]; auto].
  destruct (digits_tail s) as [ds' r'] eqn:E. intros [= <- <-]. right.
  split; [discriminate|].
  destruct (digits_tail_sound _ s ds' r' (le_n _) E) as (p & -> & Hp).
  exists (String c p). split; [reflexivity | now constructor].
Qed.

Lemma sign_sound s neg r :
  sign s = (neg, r) -> exists sg, s = sg +:+ r /\ sign_part sg.
Proof.
  unfold sign. destruct s as [|c s];
    [intros [= <- <-]; exists EmptyString; split; [reflexivity | constructor]|].
  destruct (Ascii.eqb c "-") eqn:Em.
  { apply Ascii.eqb_eq in Em as ->. intros [= <- <-]. exists "-"%string.
    split; [reflexivity | constructor]. }
  destruct (Ascii.eqb c "+") eqn:Ep.
  { apply Ascii.eqb_eq in Ep as ->. intros [= <- <-]. exists "+"%string.
    split; [reflexivity | constructor]. }
  intros [= <- <-]. exists EmptyString. split; [reflexivity | constructor].
Qed.

Lemma lower_e c : lower c = "e"%char -> c = "e"%char \/ c = "E"%char.
Proof.
  destruct c as [[] [] [] [] [] [] [] []]; vm_compute; intros H;
    try discriminate H; auto.
Qed.

Lemma exponent_sound s e r :
  exponent s = Some (e, r) ->
  exists p, s = p +:+ r /\ (p = EmptyString \/ exponent_part p).
Proof.
  unfold exponent. destruct s as [|c s];
    [intros [= <- <-]; exists EmptyString; auto|].
  destruct (Ascii.eqb (lower c) "e") eqn:Ec;
    [|intros [= <- <-]; exists EmptyString; auto].
  apply Ascii.eqb_eq, lower_e in Ec.
  destruct (sign s) as [neg s1] eqn:Es.
  destruct (digitpart s1) as [ds r'] eqn:Ed.
  destruct ds as [|d ds]; [discriminate|]. intros [= <- <-].
  apply sign_sound in Es as (sg & -> & Hsg).
  apply digitpart_sound in Ed as [[[=] _] | (_ & p & -> & Hp)].
  exists (String c (sg +:+ p)). split.
  - now rewrite app_cons_str, app_assoc_str.
  - right. now constructor.
Qed.

Lemma floatnumber_sound neg s f : floatnumber neg s = Some f -> float_number s.
Proof.
  unfold floatnumber. destruct (digitpart s) as [ip r1] eqn:Ei.
  destruct (match r1 with
            | String c r1' => if Ascii.eqb c "." then digitpart r1' else ([], r1)
            | EmptyString => ([], r1)
            end) as [fp r2] eqn:Ef.
  destruct (ip ++ fp) as [|d ds] eqn:Eds; [discriminate|].
  destruct (exponent r2) as [[e r3]|] eqn:Ee; [|discriminate].
  destruct r3; [|discriminate]. intros _.
  apply exponent_sound in Ee as (pe & -> & Hpe). rewrite app_nil_r_str in *.
  apply digitpart_sound in Ei as [[-> ->] | (Hip & pi & -> & Hpi)].
  - (* no integer part: a dot and a fraction must follow *)
    simpl in Eds. subst fp.
    destruct s as [|c s']; [discriminate|].
    destruct (Ascii.eqb c ".") eqn:Edot; [|discriminate].
    apply Ascii.eqb_eq in Edot as ->.
    apply digitpart_sound in Ef as [[[=] _] | (_ & pf & -> & Hpf)].
    apply (float_number_of (EmptyString +:+ "." +:+ pf) pe); [|assumption].
    constructor; auto.
  - destruct r1 as [|c r1'].
    + (* digits only *)
      injection Ef as <- <-.
      apply (float_number_of pi EmptyString); [now constructor | auto].
    + destruct (Ascii.eqb c ".") eqn:Edot.
      * apply Ascii.eqb_eq in Edot as ->.
        apply digitpart_sound in Ef as [[-> ->] | (_ & pf & -> & Hpf)].
        -- (* digits and a dot *)
           replace (pi +:+ String "." r1') with ((pi +:+ ".") +:+ r1')
             by (rewrite app_assoc_str; reflexivity).
           constructor; [|assumption]. now constructor.
        -- (* digits, a dot, a fraction *)
           replace (pi +:+ String "." (pf +:+ pe))
             with ((pi +:+ "." +:+ pf) +:+ pe)
             by (rewrite !app_assoc_str; reflexivity).
           constructor; [|assumption]. constructor; auto.
      * (* digits, then the exponent *)
        injection Ef as <- <-. constructor; [|assumption]. now constructor.
Qed.

(** Whatever [float] reads is numeric. *)
Lemma literal_sound s f : literal s = Some f -> float_value (strip s).
Proof.
  unfold literal. destruct (sign (strip s)) as [neg t] eqn:Es.
  apply sign_sound in Es as (sg & -> & Hsg). intros H.
  constructor; [assumption|].
  destruct (String.eqb (str_lower t) "inf") eqn:E1.
  { apply String.eqb_eq in E1. right. left. assumption. }
  destruct (String.eqb (str_lower t) "infinity") eqn:E2.
  { apply String.eqb_eq in E2. right. right. left. assumption. }
  destruct (String.eqb (str_lower t) "nan") eqn:E3.
  { apply String.eqb_eq in E3. right. right. right. assumption. }
  simpl in H. left. eauto using floatnumber_sound.
Qed.

Lemma str_mem_app c (a b : string) : str_mem c (a +:+ b) = str_mem c a || str_mem c b.
Proof.
  induction a as [|x a IH]; [reflexivity|].
  rewrite app_cons_str. simpl. rewrite IH. apply orb_assoc.
Qed.

Lemma is_digit_neq c d : is_digit c = false -> is_digit d = true -> Ascii.eqb d c = false.
Proof. intros Hc Hd. apply Ascii.eqb_neq. intros ->. congruence. Qed.

Lemma str_mem_lower c s : str_mem c s = true -> str_mem (lower c) (str_lower s) = true.
Proof.
  induction s as [|x s IH]; simpl; [discriminate|].
  intros [H|H]%orb_true_iff.
  - apply Ascii.eqb_eq in H as ->. now rewrite Ascii.eqb_refl.
  - rewrite (IH H). apply orb_true_r.
Qed.

(** A float literal holds digits, underscores, a point, signs, an
    exponent mark and the letters of "infinity" and "nan" only. *)
Lemma float_value_lacks c v :
  is_digit c = false ->
  str_mem c "_.+-eE" = false ->
  str_mem (lower c) "infinitynan" = false ->
  float_value v -> str_mem c v = false.
Proof.
  intros Hd Hp Hl Hv. cbn [str_mem] in Hp.
  repeat (apply orb_false_iff in Hp as [? Hp]).
  assert (forall s, digit_tail s -> str_mem c s = false) as Htail.
  { induction 1 as [|d s Hdig _ IH|d s Hdig _ IH]; cbn [str_mem]; [reflexivity| |].
    - now rewrite (is_digit_neq _ _ Hd Hdig), IH.
    - rewrite (is_digit_neq _ _ Hd Hdig), IH, orb_false_r. assumption. }
  assert (forall s, digit_part s -> str_mem c s = false) as Hpart.
  { intros s [d t Hdig Ht]. cbn [str_mem].
    now rewrite (is_digit_neq _ _ Hd Hdig), (Htail _ Ht). }
  assert (forall s, sign_part s -> str_mem c s = false) as Hsign.
  { intros s [| |]; cbn [str_mem]; rewrite ?orb_false_r; auto. }
  assert (forall s, number s -> str_mem c s = false) as Hnum.
  { intros s [i f Hi Hf|i Hi|i Hi]; rewrite ?str_mem_app; cbn [str_mem];
      rewrite ?(Hpart _ Hi), ?orb_false_r; auto.
    rewrite (Hpart _ Hf), orb_false_r.
    destruct Hi as [->|Hi]; [|rewrite (Hpart _ Hi)]; cbn [str_mem orb]; assumption. }
  assert (forall s, exponent_part s -> str_mem c s = false) as Hexp.
  { intros s [x sg d Hx Hsg Hdp]. cbn [str_mem].
    rewrite str_mem_app, (Hsign _ Hsg), (Hpart _ Hdp).
    destruct Hx as [->| ->]; rewrite orb_false_r; assumption. }
  destruct Hv as [sg t Hsg Ht]. rewrite str_mem_app, (Hsign _ Hsg). cbn [orb].
  destruct Ht as [[n e Hn He]|Hs].
  - rewrite str_mem_app, (Hnum _ Hn). cbn [orb].
    destruct He as [->|He]; [reflexivity|auto].
  - destruct (str_mem c t) eqn:E; [|reflexivity].
    apply str_mem_lower in E. exfalso.
    assert (str_mem (lower c) "infinity" = false /\ str_mem (lower c) "nan" = false
            /\ str_mem (lower c) "inf" = false) as (Hi1 & Hi2 & Hi3).
    { generalize dependent (lower c). intros x Hx _. cbn [str_mem] in Hx |- *.
      repeat (apply orb_false_iff in Hx as [? Hx]).
      repeat split; repeat (apply orb_false_iff; split); auto. }
    destruct Hs as [Hs|[Hs|Hs]]; rewrite Hs in E; congruence.
Qed.

Lemma lstrip_mem c s : is_space c = false -> str_mem c (lstrip s) = str_mem c s.
Proof.
  intros Hc. induction s as [|x s IH]; [reflexivity|]. simpl.
  destruct (is_space x) eqn:Ex; [|reflexivity].
  rewrite IH. replace (Ascii.eqb x c) with false; [reflexivity|].
  symmetry. apply Ascii.eqb_neq. intros ->. congruence.
Qed.

Lemma rstrip_mem c s : is_space c = false -> str_mem c (rstrip s) = str_mem c s.
Proof.
  intros Hc. induction s as [|x s IH]; [reflexivity|]. simpl.
  destruct (rstrip s) as [|y t] eqn:Er.
  - simpl in IH. rewrite <- IH. destruct (is_space x) eqn:Ex; simpl.
    + rewrite orb_false_r. symmetry. apply Ascii.eqb_neq. intros ->. congruence.
    + reflexivity.
  - simpl. simpl in IH. rewrite IH. reflexivity.
Qed.

Lemma strip_mem c s : is_space c = false -> str_mem c (strip s) = str_mem c s.
Proof. intros Hc. unfold strip. now rewrite rstrip_mem, lstrip_mem. Qed.

(** What [literal] reads holds neither a question mark nor DEL. *)
Lemma literal_lacks c s f :
  is_space c = false ->
  is_digit c = false ->
  str_mem c "_.+-eE" = false ->
  str_mem (lower c) "infinitynan" = false ->
  literal s = Some f -> str_mem c s = false.
Proof.
  intros Hs Hd Hp Hl H. rewrite <- (strip_mem _ _ Hs).
  eauto using float_value_lacks, literal_sound.
Qed.

Lemma N_of_ascii_lt c : (N_of_ascii c < 256)%N.
Proof. apply N_ascii_bounded. Qed.

(** An ASCII str without DEL is read as itself. *)
Lemma reading_ascii s :
  is_ascii s = true -> str_mem (ascii_of_N 127) s = false ->
  exists cps, code_points s = Some cps /\ reading cps s.
Proof.
  remember (ascii_of_N 127) as del eqn:Ed.
  induction s as [|c s IH]; cbn [is_ascii str_mem code_points].
  - intros _ _. exists []. split; [reflexivity|constructor].
  - intros [Hc Hs]%andb_true_iff [Hn Hm]%orb_false_iff.
    destruct (IH Hs Hm) as (cps & Hcps & Hr). cbv zeta. rewrite Hc, Hcps.
    exists (N_of_ascii c :: cps). split; [reflexivity|].
    rewrite <- (ascii_N_embedding c) at 2. constructor; [|exact Hr].
    constructor. apply N.ltb_lt in Hc. apply Ascii.eqb_neq in Hn.
    assert (N_of_ascii c <> 127)%N; [|lia].
    intros E. apply Hn. rewrite Ed, <- E. symmetry. apply ascii_N_embedding.
Qed.

Lemma white_space_found c :
  is_unicode_space c = true -> In c Unicode.white_space.
Proof.
  unfold is_unicode_space. intros (x & Hx & E)%existsb_exists.
  apply N.eqb_eq in E as ->. exact Hx.
Qed.

Lemma unicode_decimal_found c d :
  unicode_decimal c = Some d ->
  exists z, In z Unicode.decimal_zeros /\ (d < 10)%N /\ c = (z + d)%N.
Proof.
  unfold unicode_decimal.
  destruct (List.find _ Unicode.decimal_zeros) as [z|] eqn:E; [|discriminate].
  intros [= <-]. apply find_some in E as [Hz Hc].
  apply andb_true_iff in Hc as [H1%N.leb_le H2%N.ltb_lt].
  exists z. repeat split; [exact Hz|lia|lia].
Qed.

(** [to_ascii] reads every character, or stops at one that is not read
    and ends with a question mark. *)
Lemma to_ascii_spec cps :
  reading cps (to_ascii cps) \/ exists u, to_ascii cps = u +:+ "?".
Proof.
  induction cps as [|c cps IH]; simpl; [left; constructor|].
  assert (forall a, reads c a ->
            reading (c :: cps) (String a (to_ascii cps))
            \/ exists u, String a (to_ascii cps) = u +:+ "?") as Hk.
  { intros a Ha. destruct IH as [IH|[u Hu]].
    - left. constructor; assumption.
    - right. exists (String a u). rewrite Hu. reflexivity. }
  destruct (c <? 127)%N eqn:E1.
  - apply Hk. constructor. apply N.ltb_lt. exact E1.
  - destruct (is_unicode_space c) eqn:E2.
    + apply Hk. apply reads_space. apply white_space_found. exact E2.
    + destruct (unicode_decimal c) as [d|] eqn:E3.
      * apply unicode_decimal_found in E3 as (z & Hz & Hd & ->).
        apply Hk. now apply reads_digit.
      * right. exists EmptyString. reflexivity.
Qed.

(** What [float] accepts is numeric. *)
Lemma parse_sound s f : parse s = Some f -> numeric s.
Proof.
  unfold parse, numeric. destruct (is_ascii s) eqn:Ea.
  - intros H.
    pose proof (literal_lacks (ascii_of_N 127) s f eq_refl eq_refl eq_refl eq_refl H)
      as Hdel.
    destruct (reading_ascii s Ea Hdel) as (cps & Hcps & Hr).
    exists cps, s. eauto using literal_sound.
  - destruct (code_points s) as [cps|]; [|discriminate]. intros H.
    exists cps, (to_ascii cps). split; [reflexivity|].
    split; [|eauto using literal_sound].
    destruct (to_ascii_spec cps) as [Hr|[u Hu]]; [exact Hr|].
    pose proof (literal_lacks "?" _ f eq_refl eq_refl eq_refl eq_refl H) as Hq.
    rewrite Hu, str_mem_app in Hq. simpl in Hq. rewrite orb_true_r in Hq.
    discriminate Hq.
Qed.

End FloatSound.

(** ** Reading floats: every float literal is read *)

Section FloatComplete.
Import PyFloat FloatGrammar.

Lemma digits_tail_ends r : ends_digits r -> digits_tail r = ([], r).
Proof.
  destruct r as [|c r]; [reflexivity|]. intros [Hd Hu]. simpl. rewrite Hd.
  apply Ascii.eqb_neq in Hu. rewrite Hu. reflexivity.
Qed.

Lemma digits_tail_complete p r :
  digit_tail p -> ends_digits r -> exists ds, digits_tail (p +:+ r) = (ds, r).
Proof.
  intros Hp Hr. induction Hp as [|c s Hc Hs [ds IH]|c s Hc Hs [ds IH]].
  - exists []. now apply digits_tail_ends.
  - exists (digit_val c :: ds). rewrite app_cons_str. simpl. now rewrite Hc, IH.
  - exists (digit_val c :: ds). rewrite !app_cons_str. simpl. now rewrite Hc, IH.
Qed.

Lemma digitpart_complete p r :
  digit_part p -> ends_digits r ->
  exists d ds, digitpart (p +:+ r) = (d :: ds, r).
Proof.
  intros [c s Hc Hs] Hr. destruct (digits_tail_complete s r Hs Hr) as [ds E].
  exists (digit_val c), ds. rewrite app_cons_str. simpl. now rewrite Hc, E.
Qed.

Lemma digitpart_none r : ends_digits r -> digitpart r = ([], r).
Proof. destruct r as [|c r]; [reflexivity|]. intros [Hd _]. simpl. now rewrite Hd. Qed.

Lemma digit_not_sign c :
  is_digit c = true -> Ascii.eqb c "-" = false /\ Ascii.eqb c "+" = false.
Proof. destruct c as [[] [] [] [] [] [] [] []]; vm_compute; intros; auto; discriminate. Qed.

Lemma sign_complete sg t :
  sign_part sg ->
  (forall c t', t = String c t' -> Ascii.eqb c "-" = false /\ Ascii.eqb c "+" = false) ->
  exists neg, sign (sg +:+ t) = (neg, t).
Proof.
  intros [| |] Ht.
  - exists false. change (EmptyString +:+ t) with t. destruct t as [|c t']; [reflexivity|].
    destruct (Ht c t' eq_refl) as [E1 E2]. simpl. now rewrite E1, E2.
  - exists false. reflexivity.
  - exists true. reflexivity.
Qed.

Lemma exponent_ends e : e = EmptyString \/ exponent_part e -> ends_digits e.
Proof.
  intros [-> | He]; [exact I|]. destruct He as [c sg d Hc _ _].
  destruct Hc as [-> | ->]; (split; [reflexivity | discriminate]).
Qed.

Lemma exponent_complete e :
  e = EmptyString \/ exponent_part e -> exists x, exponent e = Some (x, EmptyString).
Proof.
  intros [-> | [c sg d Hc Hsg Hd]]; [exists 0%Z; reflexivity|].
  assert (Ascii.eqb (lower c) "e" = true) as Hl by (destruct Hc as [-> | ->]; reflexivity).
  unfold exponent. rewrite Hl.
  destruct (sign_complete sg d Hsg) as [neg Hs].
  { intros c' t' ->. inversion Hd; subst. now apply digit_not_sign. }
  rewrite Hs.
  destruct (digitpart_complete d EmptyString Hd I) as (x & xs & E).
  rewrite app_nil_r_str in E. rewrite E. eauto.
Qed.

Lemma dot_ends r : ends_digits (String "." r).
Proof. split; [reflexivity | discriminate]. Qed.

Lemma floatnumber_complete neg t :
  float_number t -> exists f, floatnumber neg t = Some f.
Proof.
  intros H. inversion H as [n e Hn He Heq]. clear H Heq.
  pose proof (exponent_ends e He) as Hends.
  destruct (exponent_complete e He) as [x Hx]. unfold floatnumber.
  destruct Hn as [i f Hi Hf | i Hi | i Hi].
  - (* [i] "." f *)
    rewrite !app_assoc_str. change ("." +:+ f +:+ e) with (String "." (f +:+ e)).
    destruct (digitpart_complete f e Hf Hends) as (y & ys & Ef).
    destruct Hi as [-> | Hi].
    + change (EmptyString +:+ String "." (f +:+ e)) with (String "." (f +:+ e)).
      rewrite (digitpart_none _ (dot_ends _)). simpl. rewrite Ef, Hx. simpl. eauto.
    + destruct (digitpart_complete i _ Hi (dot_ends (f +:+ e))) as (z & zs & Ei).
      rewrite Ei. simpl. rewrite Ef, Hx. simpl. eauto.
  - (* i *)
    destruct (digitpart_complete i e Hi Hends) as (z & zs & Ei). rewrite Ei.
    destruct e as [|c e'].
    + simpl. eauto.
    + destruct Hends as [_ _].
      assert (Ascii.eqb c "." = false) as Hdot.
      { destruct He as [[=] | He]. inversion He as [c' sg d [-> | ->] ? ? Heq]; reflexivity. }
      rewrite Hdot, Hx. simpl. eauto.
  - (* i "." *)
    rewrite app_assoc_str. change ("." +:+ e) with (String "." e).
    destruct (digitpart_complete i _ Hi (dot_ends e)) as (z & zs & Ei).
    rewrite Ei. simpl. rewrite (digitpart_none _ Hends), Hx. simpl. eauto.
Qed.

Lemma number_unsigned n e c t' :
  number n -> n +:+ e = String c t' ->
  Ascii.eqb c "-" = false /\ Ascii.eqb c "+" = false.
Proof.
  assert (forall p, digit_part p -> forall r, p +:+ r = String c t' ->
            Ascii.eqb c "-" = false /\ Ascii.eqb c "+" = false) as Hdp.
  { intros p [c' s Hc _] r [= <- _]. now apply digit_not_sign. }
  intros [i f [-> | Hi] Hf | i Hi | i Hi] H.
  - injection H as <- _. auto.
  - rewrite app_assoc_str in H. eauto.
  - eauto.
  - rewrite app_assoc_str in H. eauto.
Qed.

Lemma special_unsigned t c t' :
  special t -> t = String c t' ->
  Ascii.eqb c "-" = false /\ Ascii.eqb c "+" = false.
Proof.
  intros H ->. simpl in H.
  assert (lower c = "i"%char \/ lower c = "n"%char) as Hc
    by (destruct H as [H | [H | H]]; injection H; auto).
  clear H. revert Hc.
  destruct c as [[] [] [] [] [] [] [] []]; vm_compute; intros [H | H];
    try discriminate H; auto.
Qed.

(** [float] reads every numeric string. *)
Lemma literal_complete s : float_value (strip s) -> exists f, literal s = Some f.
Proof.
  unfold literal. intros H. inversion H as [sg t Hsg Ht Heq]. clear H.
  destruct (sign_complete sg t Hsg) as [neg Hs].
  { intros c t' E. destruct Ht as [Ht | Ht].
    - inversion Ht as [n e Hn He Hne].
      eapply number_unsigned; [exact Hn | rewrite Hne; exact E].
    - eapply special_unsigned; [exact Ht | exact E]. }
  rewrite Hs.
  destruct (String.eqb (str_lower t) "inf" || String.eqb (str_lower t) "infinity")
    eqn:E12; [eauto|].
  destruct (String.eqb (str_lower t) "nan") eqn:E3; [eauto|].
  apply orb_false_iff in E12 as [E1 E2].
  destruct Ht as [Ht | [Ht | [Ht | Ht]]].
  - now apply floatnumber_complete.
  - apply String.eqb_eq in Ht. congruence.
  - apply String.eqb_eq in Ht. congruence.
  - apply String.eqb_eq in Ht. congruence.
Qed.

Lemma white_space_high c :
  In c Unicode.white_space -> (128 <= c)%N /\ is_unicode_space c = true.
Proof.
  intros H. split.
  - assert (forallb (fun c => (128 <=? c)%N) Unicode.white_space = true) as Hall
      by reflexivity.
    rewrite forallb_forall in Hall. apply N.leb_le. auto.
  - unfold is_unicode_space. apply existsb_exists. exists c.
    split; [exact H | apply N.eqb_refl].
Qed.

(** The runs of decimal digits lie outside ASCII, hold no white space and
    do not overlap. *)
Lemma decimal_table z d :
  In z Unicode.decimal_zeros -> (d < 10)%N ->
  (128 <= z + d)%N /\ is_unicode_space (z + d) = false
  /\ unicode_decimal (z + d) = Some d.
Proof.
  intros Hz Hd.
  assert (forallb
            (fun z =>
               forallb
                 (fun d =>
                    (128 <=? z + d)%N && negb (is_unicode_space (z + d))
                    && match unicode_decimal (z + d) with
                       | Some d' => (d' =? d)%N
                       | None => false
                       end)
                 [0; 1; 2; 3; 4; 5; 6; 7; 8; 9]%N)
            Unicode.decimal_zeros = true) as Hall by (vm_compute; reflexivity).
  rewrite forallb_forall in Hall. specialize (Hall z Hz).
  rewrite forallb_forall in Hall.
  assert (In d [0; 1; 2; 3; 4; 5; 6; 7; 8; 9]%N) as Hin by (simpl; lia).
  specialize (Hall d Hin).
  apply andb_true_iff in Hall as [[H1 H2]%andb_true_iff H3].
  apply N.leb_le in H1. apply negb_true_iff in H2.
  destruct (unicode_decimal (z + d)) as [d'|]; [|discriminate H3].
  apply N.eqb_eq in H3 as ->. auto.
Qed.

Lemma to_ascii_reading cps t : reading cps t -> to_ascii cps = t.
Proof.
  induction 1 as [|c a cps t Hr _ IH]; [reflexivity|]. simpl. rewrite IH.
  destruct Hr as [c Hc|c Hc|z d Hz Hd].
  - apply N.ltb_lt in Hc. now rewrite Hc.
  - destruct (white_space_high c Hc) as [H1 H2].
    replace (c <? 127)%N with false by (symmetry; apply N.ltb_ge; lia).
    now rewrite H2.
  - destruct (decimal_table z d Hz Hd) as (H1 & H2 & H3).
    replace (z + d <? 127)%N with false by (symmetry; apply N.ltb_ge; lia).
    now rewrite H2, H3.
Qed.

(** The only reading of an ASCII str is the str itself. *)
Lemma reading_ascii_inv s : forall cps t,
  is_ascii s = true -> code_points s = Some cps -> reading cps t -> t = s.
Proof.
  induction s as [|c s IH]; intros cps t; simpl.
  - intros _ [= <-] Hr. inversion Hr. reflexivity.
  - intros [Hc Hs]%andb_true_iff. rewrite Hc.
    destruct (code_points s) as [cps'|] eqn:E; [|discriminate]. simpl.
    intros [= <-] Hr.
    inversion Hr as [|c' a cps'' t' Ha Ht]; subst. f_equal; [|eauto].
    apply N.ltb_lt in Hc. inversion Ha as [x Hx Ex|x Hx|z d Hz Hd Ez]; subst.
    + apply ascii_N_embedding.
    + destruct (white_space_high _ Hx). lia.
    + destruct (decimal_table z d Hz Hd) as (H1 & _). lia.
Qed.

(** What is numeric, [float] accepts. *)
Lemma parse_complete s : numeric s -> exists f, parse s = Some f.
Proof.
  intros (cps & t & Hcps & Hr & Hv). unfold parse. destruct (is_ascii s) eqn:Ea.
  - assert (t = s) as <- by eauto using reading_ascii_inv.
    now apply literal_complete.
  - rewrite Hcps, (to_ascii_reading _ _ Hr). now apply literal_complete.
Qed.

End FloatComplete.

(** ** transform: the claims *)


(** [float] on strings that are not plain literals: a separator character
    is no white space to it, a no-break space is; digits of another script
    are read by their value; an underscore may stand between digits. *)
Example float_reads_characters :
  PyFloat.float (String (ascii_of_nat 28) "1") = Raise ValueError
  /\ PyFloat.float
       ("100" +:+ String (ascii_of_nat 194) (String (ascii_of_nat 160) EmptyString))
     = Ok 100%float
  /\ PyFloat.float "١٢٣" = Ok 123%float
  /\ PyFloat.float "1_000.5" = Ok 1000.5%float
  /\ PyFloat.float "1__0" = Raise ValueError
  /\ PyFloat.float "−1" = Raise ValueError.
Proof. repeat split; vm_compute; reflexivity. Qed.



Lemma filter3 (P : string -> bool) a b c :
  List.filter P [a; b; c]
  = (if P a then [a] else []) ++ (if P b then [b] else [])
    ++ (if P c then [c] else []).
Proof. simpl. destruct (P a), (P b), (P c); reflexivity. Qed.

Lemma existsb_app_other c c' (b : bool) l :
  c <> c' ->
  existsb (String.eqb c) (l ++ (if b then [] else [c'])) = existsb (String.eqb c) l.
Proof.
  intros Hne. rewrite existsb_app. apply String.eqb_neq in Hne.
  destruct b; simpl; rewrite ?Hne; apply orb_false_r.
Qed.

(** The columns after [transform]: the columns before it, in place, and
    then those of GBP, EUR and INR that were not there. *)
Lemma transform_columns h df path df' :
  transform h df path = Ok df' ->
  columns df' =
    columns df ++ List.filter (fun c => negb (has_column df c)) [GBP; EUR; INR].
Proof.
  intros H.
  apply transform_Ok in H
    as (d & raw & usd & cg & ce & cr & _ & Hraw & _ & _ & _ & _ & _ & _ & Hdata).
  apply get_column_Ok in Hraw.
  unfold columns. rewrite Hdata. do 3 rewrite replace_column_names.
  rewrite (replace_column_names_present _ _ _ _ Hraw).
  rewrite filter3. unfold has_column, columns.
  rewrite !existsb_app_other by discriminate.
  rewrite <- !app_assoc.
  destruct (existsb (String.eqb GBP) (map fst (data df)));
    destruct (existsb (String.eqb EUR) (map fst (data df)));
    destruct (existsb (String.eqb INR) (map fst (data df))); reflexivity.
Qed.

(** C7. On the frame that [extract] returns, [transform] removes no row
    and moves none: the number of rows is the same and every column other
    than the four it writes has the same cells at the same positions.
    The USD column is overwritten where it stands with the cleaned values.
    The columns only widen: those of the input keep their order, and those
    of GBP, EUR and INR that were not there follow.  For the configured
    names Name and MC_USD_Billion the output columns are Name, USD, GBP,
    EUR, INR, the last three being new. *)
Theorem transform_keeps_rows h url attrs path df df' :
  NoDup attrs ->
  extract h url attrs = Ok df ->
  transform h df path = Ok df' ->
  nrows df' = nrows df
  /\ wf_frame df'
  /\ columns df' =
       columns df ++ List.filter (fun c => negb (has_column df c)) [GBP; EUR; INR]
  /\ (forall c, c <> USD -> c <> GBP -> c <> EUR -> c <> INR ->
                get_column df' c = get_column df c)
  /\ (exists raw usd,
        get_column df USD = Ok raw /\ mapM clean raw = Ok usd
        /\ get_column df' USD = Ok (map Num usd))
  /\ (attrs = ["Name"%string; USD] ->
      columns df = ["Name"%string; USD]
      /\ columns df' = ["Name"%string; USD; GBP; EUR; INR]).
Proof.
  intros _ Hex Htr. pose proof (transform_columns _ _ _ _ Htr) as Hcols.
  apply extract_frame in Hex as [Hwf Hexcols].
  apply transform_Ok in Htr
    as (d & raw & usd & cg & ce & cr & _ & Hraw & Husd & Hlen & Hcg & Hce & Hcr & Hn & Hdata).
  apply converted_length in Hcg, Hce, Hcr. rewrite length_map in Hcg, Hce, Hcr.
  pose proof (mapM_length _ _ _ Husd) as Hlu.
  split; [exact Hn|]. split; [|split; [exact Hcols|split; [|split]]].
  - unfold wf_frame. rewrite Hdata, Hn.
    repeat apply replace_column_wf; try lia; [rewrite length_map; lia | exact Hwf].
  - intros c H1 H2 H3 H4. unfold get_column. rewrite Hdata.
    rewrite !assoc_replace_ne by congruence. reflexivity.
  - exists raw, usd. apply transform_written in Hdata as (H1 & _). auto.
  - intros ->.
    assert (columns df = ["Name"%string; USD]) as Hc.
    { rewrite Hexcols. unfold extracted_columns.
      destruct (nrows df =? 0)%nat; reflexivity. }
    split; [exact Hc|]. rewrite Hcols. unfold has_column. rewrite Hc. reflexivity.
Qed.

Lemma transform_keeps_rows_witness :
  nrows Scenario.transformed = nrows Scenario.extracted
  /\ wf_frame Scenario.transformed
  /\ columns Scenario.transformed =
       columns Scenario.extracted
       ++ List.filter (fun c => negb (has_column Scenario.extracted c)) [GBP; EUR; INR]
  /\ (forall c, c <> USD -> c <> GBP -> c <> EUR -> c <> INR ->
                get_column Scenario.transformed c = get_column Scenario.extracted c)
  /\ (exists raw usd,
        get_column Scenario.extracted USD = Ok raw /\ mapM clean raw = Ok usd
        /\ get_column Scenario.transformed USD = Ok (map Num usd))
  /\ (Scenario.standard_attributes = ["Name"%string; USD] ->
      columns Scenario.extracted = ["Name"%string; USD]
      /\ columns Scenario.transformed = ["Name"%string; USD; GBP; EUR; INR]).
Proof.
  apply (transform_keeps_rows Scenario.host "https://example.org/banks"
           Scenario.standard_attributes "exchange_rate.csv"
           Scenario.extracted Scenario.transformed).
  - apply (bool_decide_unpack _). vm_compute. exact I.
  - vm_compute. reflexivity.
  - vm_compute. reflexivity.
Defined.

(** ** The CSV sink *)






(** ** The database sink *)

Lemma table_rows_insert_eq db name t : table_rows (<[name := t]> db) name = trows t.
Proof. unfold table_rows. rewrite lookup_insert_eq. reflexivity. Qed.

Lemma table_rows_insert_ne db name other t :
  other <> name -> table_rows (<[name := t]> db) other = table_rows db other.
Proof. intros H. unfold table_rows. rewrite lookup_insert_ne by congruence. reflexivity. Qed.










(** The table of the scenario after two loads holds the bank twice. *)
Example loaded_twice_rows :
  stored_rows (Scenario.loaded_twice Scenario.transformed) "Banks.db" "Largest_banks"
  = [ [SqlText "Bank A"; SqlReal 100000; SqlReal 80000; SqlReal 90000; SqlReal 8000000];
      [SqlText "Bank A"; SqlReal 100000; SqlReal 80000; SqlReal 90000; SqlReal 8000000] ].
Proof. vm_compute. reflexivity. Qed.

(** ** The driver and its log *)



















(** ** The query of the driver *)

(** C2. The statement that the driver runs names the table Largest_banks,
    whatever table the configuration names.  In the scenario, with the
    configured table Banks, the row is loaded into Banks, the query finds
    no table Largest_banks, the run raises and nothing is printed after
    the statement.  With the configured table Largest_banks the run
    completes and prints the average 80000.0. *)
Theorem query_reads_fixed_table :
  fst (Scenario.run "Banks") = Raise DatabaseError
  /\ stored_rows (snd (Scenario.run "Banks")) "Banks.db" "Banks"
     = [Scenario.bank_record]
  /\ stored_rows (snd (Scenario.run "Banks")) "Banks.db" "Largest_banks" = []
  /\ last (stdout (snd (Scenario.run "Banks")))
     = Some (PStr "SELECT AVG(MC_GBP_Billion) FROM Largest_banks")
  /\ fst (Scenario.run "Largest_banks") = Ok tt
  /\ stored_rows (snd (Scenario.run "Largest_banks")) "Banks.db" "Largest_banks"
     = [Scenario.bank_record]
  /\ last (stdout (snd (Scenario.run "Largest_banks")))
     = Some (PFrame Scenario.query_output).
Proof. repeat split; vm_compute; reflexivity. Qed.

(** The text of the CSV file that the scenario writes. *)
Example scenario_csv :
  files (snd (Scenario.run "Largest_banks")) !! "Largest_banks_data.csv"%string
  = Some (",Name,MC_USD_Billion,MC_GBP_Billion,MC_EUR_Billion,MC_INR_Billion"
          +:+ Scenario.line_feed
          +:+ "0,Bank A,100000.0,80000.0,90000.0,8000000.0" +:+ Scenario.line_feed).
Proof. vm_compute. reflexivity. Qed.

(** * More of the program *)

(** ** extract: the rows it returns *)

Lemma assoc_None {A} k (l : list (string * A)) :
  existsb (String.eqb k) (map fst l) = false -> assoc k l = None.
Proof.
  induction l as [|[k' v] l IH]; simpl; [reflexivity|].
  rewrite (String.eqb_sym k k'). destruct (String.eqb k' k); [discriminate | exact IH].
Qed.

Lemma assoc_Some {A} k (l : list (string * A)) :
  existsb (String.eqb k) (map fst l) = true -> exists v, assoc k l = Some v.
Proof.
  induction l as [|[k' v] l IH]; simpl; [discriminate|].
  rewrite (String.eqb_sym k k'). destruct (String.eqb k' k); simpl; eauto.
Qed.

Lemma assoc_tabulate {A} (f : string -> A) k (l : list string) :
  assoc k (map (fun c => (c, f c)) l)
  = if existsb (String.eqb k) l then Some (f k) else None.
Proof.
  induction l as [|c l IH]; simpl; [reflexivity|].
  rewrite (String.eqb_sym k c). destruct (String.eqb c k) eqn:E; simpl; [|exact IH].
  apply String.eqb_eq in E as ->. reflexivity.
Qed.

Lemma existsb_filter_absent k (l l1 : list string) :
  existsb (String.eqb k) l = false ->
  existsb (String.eqb k)
    (List.filter (fun c => negb (existsb (String.eqb c) l)) l1)
  = existsb (String.eqb k) l1.
Proof.
  intros Hk. induction l1 as [|c l1 IH]; simpl; [reflexivity|].
  destruct (existsb (String.eqb c) l) eqn:Ec; simpl.
  - rewrite IH. destruct (String.eqb k c) eqn:E; [|reflexivity].
    apply String.eqb_eq in E as ->. congruence.
  - now rewrite IH.
Qed.

(** Concatenation puts the cells of a column one after the other, whether
    both frames, one of them or neither has the column. *)
Lemma column_or_nan_concat df df1 c :
  column_or_nan (concat df df1) c = column_or_nan df c ++ column_or_nan df1 c.
Proof.
  unfold column_or_nan at 1, concat. cbn [data nrows].
  rewrite assoc_tabulate, existsb_app. unfold has_column.
  destruct (existsb (String.eqb c) (columns df)) eqn:E; [reflexivity|].
  rewrite (existsb_filter_absent _ _ _ E).
  destruct (existsb (String.eqb c) (columns df1)) eqn:E1; [reflexivity|].
  unfold column_or_nan, columns in *.
  rewrite (assoc_None _ _ E), (assoc_None _ _ E1). apply replicate_add.
Qed.

Lemma get_column_present df c :
  has_column df c = true -> get_column df c = Ok (column_or_nan df c).
Proof.
  unfold has_column, columns, get_column, column_or_nan. intros H.
  destruct (assoc_Some _ _ H) as [v ->]. reflexivity.
Qed.

Lemma column_or_nan_empty names c : column_or_nan (empty_frame names) c = [].
Proof.
  unfold column_or_nan, empty_frame. cbn [data nrows]. rewrite assoc_tabulate.
  destruct (existsb _ _); reflexivity.
Qed.

Lemma column_or_nan_dict name mc c :
  column_or_nan
    (frame_of_dict [("Name"%string, Obj name); ("MC_USD_Billion"%string, Obj mc)]) c
  = added_cells c [name] [mc].
Proof.
  unfold column_or_nan, frame_of_dict, added_cells. cbn [data nrows map fst snd assoc].
  destruct (String.eqb "Name" c); [reflexivity|].
  destruct (String.eqb "MC_USD_Billion" c); reflexivity.
Qed.

(** A turn of the loop on a row with a cell: when it returns, the row has
    a name and a metric, and they are the new row of the frame. *)
Lemma extract_row_taken row df df' :
  has_cell row = true ->
  extract_row row df = Ok df' ->
  exists name mc,
    row_name row = Some name /\ row_metric row = Some mc
    /\ df' = concat df (frame_of_dict [("Name"%string, Obj name);
                                       ("MC_USD_Billion"%string, Obj mc)]).
Proof.
  unfold has_cell, extract_row, row_name, row_metric. intros -> H.
  apply bind_Ok in H as (c1 & H1 & H). apply bind_Ok in H as (a & Ha & H).
  apply bind_Ok in H as (name & Hn & H). apply bind_Ok in H as (c2 & H2 & H).
  apply bind_Ok in H as (mc & Hm & H). injection H as <-.
  apply py_index_Ok in H1, Ha, Hn, H2, Hm.
  exists name, mc. rewrite H1, Ha, H2. auto.
Qed.

Lemma extract_row_skipped row df :
  has_cell row = false -> extract_row row df = Ok df.
Proof. unfold has_cell, extract_row. intros ->. reflexivity. Qed.

(** The loop, from any frame: the rows with a cell are taken in order, and
    each column grows by what they add to it. *)
Lemma extract_rows_cells rows df df' :
  extract_rows rows df = Ok df' ->
  exists names metrics,
    map row_name (List.filter has_cell rows) = map Some names
    /\ map row_metric (List.filter has_cell rows) = map Some metrics
    /\ nrows df' = nrows df + length names
    /\ forall c, column_or_nan df' c = column_or_nan df c ++ added_cells c names metrics.
Proof.
  revert df. induction rows as [|row rows IH]; simpl; intros df H.
  - injection H as <-. exists [], []. simpl. repeat split; [lia|].
    intros c. unfold added_cells.
    destruct (String.eqb "Name" c), (String.eqb "MC_USD_Billion" c);
      simpl; now rewrite app_nil_r.
  - apply bind_Ok in H as (df1 & Hrow & H).
    destruct (IH _ H) as (names & metrics & Hn & Hm & Hlen & Hcol).
    destruct (has_cell row) eqn:Hc.
    + apply (extract_row_taken _ _ _ Hc) in Hrow as (name & mc & Hrn & Hrm & ->).
      exists (name :: names), (mc :: metrics). simpl.
      rewrite Hrn, Hrm, Hn, Hm. repeat split.
      * rewrite Hlen, concat_nrows. simpl. lia.
      * intros c. rewrite Hcol, column_or_nan_concat, column_or_nan_dict, <- app_assoc.
        f_equal. unfold added_cells.
        destruct (String.eqb "Name" c); [reflexivity|].
        destruct (String.eqb "MC_USD_Billion" c); reflexivity.
    + rewrite (extract_row_skipped _ _ Hc) in Hrow. injection Hrow as <-.
      exists names, metrics. auto.
Qed.

Lemma extracted_columns_keys attrs n :
  n <> 0 ->
  existsb (String.eqb "Name") (extracted_columns attrs n) = true
  /\ existsb (String.eqb "MC_USD_Billion") (extracted_columns attrs n) = true.
Proof.
  intros Hn. unfold extracted_columns. apply Nat.eqb_neq in Hn. rewrite Hn.
  generalize "Name"%string "MC_USD_Billion"%string. intros a b.
  rewrite !existsb_app. simpl.
  destruct (existsb (String.eqb a) attrs) eqn:Ea;
    destruct (existsb (String.eqb b) attrs) eqn:Eb; simpl;
    rewrite ?String.eqb_refl, ?orb_true_r; auto.
Qed.

Lemma extracted_columns_requested attrs n c :
  In c attrs -> existsb (String.eqb c) (extracted_columns attrs n) = true.
Proof.
  intros Hc. unfold extracted_columns. rewrite existsb_app.
  apply orb_true_iff. left. apply existsb_exists. exists c.
  split; [exact Hc | apply String.eqb_refl].
Qed.

(** The loop from the empty frame, as [extract] runs it. *)
Lemma extract_cells h url attrs data tbody df :
  soup_of h url = Ok data ->
  find_all "tbody" data !! 0 = Some tbody ->
  extract h url attrs = Ok df ->
  exists names metrics,
    map row_name (List.filter has_cell (find_all "tr" tbody)) = map Some names
    /\ map row_metric (List.filter has_cell (find_all "tr" tbody)) = map Some metrics
    /\ nrows df = length names
    /\ forall c, column_or_nan df c = added_cells c names metrics.
Proof.
  intros Hsoup Htb H. unfold extract in H. rewrite Hsoup in H. simpl in H.
  apply py_index_Ok in Htb. rewrite Htb in H. simpl in H.
  apply extract_rows_cells in H as (names & metrics & Hn & Hm & Hlen & Hcol).
  exists names, metrics. repeat split; try assumption.
  intros c. rewrite Hcol, column_or_nan_empty. reflexivity.
Qed.

Lemma map_Some_Forall {A B} (f : A -> option B) (P : B -> Prop) l ys :
  Forall (fun x => forall y, f x = Some y -> P y) l ->
  map f l = map Some ys -> Forall P ys.
Proof.
  intros Hl. revert ys. induction Hl as [|x l Hx _ IH]; intros [|y ys]; simpl;
    try discriminate; [constructor|].
  intros [= Hf Hm]. constructor; auto.
Qed.

Lemma text_nodes es :
  Forall (fun e => is_text (Obj e)) es -> exists ss, es = map NavigableString ss.
Proof.
  induction 1 as [|e es [s [= ->]] _ [ss ->]]; [exists []; reflexivity|].
  exists (s :: ss). reflexivity.
Qed.

(** When the loop takes text nodes only, the names and the metrics it has
    taken are texts. *)
Lemma takes_text_nodes rows names metrics :
  takes_text rows ->
  map row_name (List.filter has_cell rows) = map Some names ->
  map row_metric (List.filter has_cell rows) = map Some metrics ->
  exists ns ms, names = map NavigableString ns /\ metrics = map NavigableString ms.
Proof.
  intros Ht Hn Hm. unfold takes_text in Ht.
  destruct (text_nodes names) as [ns ->].
  { apply (map_Some_Forall row_name (fun e => is_text (Obj e)) _ _) in Hn; [exact Hn|].
    eapply Forall_impl; [exact Ht|]. cbv beta. eauto. }
  destruct (text_nodes metrics) as [ms ->].
  { apply (map_Some_Forall row_metric (fun e => is_text (Obj e)) _ _) in Hm; [exact Hm|].
    eapply Forall_impl; [exact Ht|]. cbv beta. eauto. }
  eauto.
Qed.

(** X1. When the nodes that the loop takes are text nodes and [extract]
    returns, the frame has one row per [<tr>] of the first [<tbody>] that
    has a [<td>], in page order: row [i] holds under Name the text that is
    the first child of the second [<a>] of the second [<td>] of the
    [i]-th such [<tr>], and under MC_USD_Billion the text that is the
    first child of its third [<td>]. *)
Theorem extract_rows_in_page_order h url attrs data tbody df :
  soup_of h url = Ok data ->
  find_all "tbody" data !! 0 = Some tbody ->
  takes_text (find_all "tr" tbody) ->
  extract h url attrs = Ok df ->
  exists names metrics : list string,
    map row_name (List.filter has_cell (find_all "tr" tbody))
    = map (fun s => Some (NavigableString s)) names
    /\ map row_metric (List.filter has_cell (find_all "tr" tbody))
       = map (fun s => Some (NavigableString s)) metrics
    /\ nrows df = length (List.filter has_cell (find_all "tr" tbody))
    /\ column_or_nan df "Name" = map (fun s => Obj (NavigableString s)) names
    /\ column_or_nan df "MC_USD_Billion"
       = map (fun s => Obj (NavigableString s)) metrics
    /\ (nrows df <> 0 ->
        get_column df "Name" = Ok (map (fun s => Obj (NavigableString s)) names)
        /\ get_column df "MC_USD_Billion"
           = Ok (map (fun s => Obj (NavigableString s)) metrics)).
Proof.
  intros Hsoup Htb Htext H.
  destruct (extract_cells _ _ _ _ _ _ Hsoup Htb H)
    as (names & metrics & Hn & Hm & Hlen & Hcol).
  destruct (takes_text_nodes _ _ _ Htext Hn Hm) as (ns & ms & -> & ->).
  apply extract_frame in H as [_ Hcols].
  rewrite map_map in Hn, Hm.
  pose proof (Hcol "Name"%string) as Hc1.
  pose proof (Hcol "MC_USD_Billion"%string) as Hc2.
  change (added_cells "Name" (map NavigableString ns) (map NavigableString ms))
    with (map Obj (map NavigableString ns)) in Hc1.
  change (added_cells "MC_USD_Billion" (map NavigableString ns) (map NavigableString ms))
    with (map Obj (map NavigableString ms)) in Hc2.
  rewrite map_map in Hc1, Hc2.
  exists ns, ms. split; [exact Hn|]. split; [exact Hm|].
  split; [|split; [exact Hc1|split; [exact Hc2|]]].
  - rewrite Hlen, length_map. apply (f_equal length) in Hn.
    rewrite !length_map in Hn. lia.
  - intros Hrows. destruct (extracted_columns_keys attrs _ Hrows) as [H1 H2].
    rewrite <- Hcols in H1, H2.
    rewrite (get_column_present _ _ H1), (get_column_present _ _ H2), Hc1, Hc2. auto.
Qed.

Lemma extract_rows_in_page_order_witness :
  exists names metrics : list string,
    map row_name (List.filter has_cell
       (find_all "tr" (Tag "tbody" [Scenario.header_row; Scenario.bank_row])))
    = map (fun s => Some (NavigableString s)) names
    /\ map row_metric (List.filter has_cell
         (find_all "tr" (Tag "tbody" [Scenario.header_row; Scenario.bank_row])))
       = map (fun s => Some (NavigableString s)) metrics
    /\ nrows Scenario.extracted
       = length (List.filter has_cell
           (find_all "tr" (Tag "tbody" [Scenario.header_row; Scenario.bank_row])))
    /\ column_or_nan Scenario.extracted "Name"
       = map (fun s => Obj (NavigableString s)) names
    /\ column_or_nan Scenario.extracted "MC_USD_Billion"
       = map (fun s => Obj (NavigableString s)) metrics
    /\ (nrows Scenario.extracted <> 0 ->
        get_column Scenario.extracted "Name"
        = Ok (map (fun s => Obj (NavigableString s)) names)
        /\ get_column Scenario.extracted "MC_USD_Billion"
           = Ok (map (fun s => Obj (NavigableString s)) metrics)).
Proof.
  apply (extract_rows_in_page_order Scenario.host "u" Scenario.standard_attributes
           Scenario.page (Tag "tbody" [Scenario.header_row; Scenario.bank_row])
           Scenario.extracted).
  - reflexivity.
  - reflexivity.
  - repeat constructor. intros e [H|H]; vm_compute in H; injection H as <-;
      eexists; reflexivity.
  - vm_compute. reflexivity.
Defined.

(** X2. In the frame that [extract] returns, every requested column other
    than Name and MC_USD_Billion holds NaN in every row: the loop fills the
    two fixed keys only. *)
Theorem extract_other_columns_nan h url attrs df c :
  extract h url attrs = Ok df ->
  In c attrs ->
  c <> "Name"%string ->
  c <> "MC_USD_Billion"%string ->
  get_column df c = Ok (replicate (nrows df) NaN).
Proof.
  intros H Hc Hn Hu. pose proof H as Hex. unfold extract in H.
  apply bind_Ok in H as (data & Hsoup & H). apply bind_Ok in H as (t0 & Htb & _).
  apply py_index_Ok in Htb.
  destruct (extract_cells _ _ _ _ _ _ Hsoup Htb Hex)
    as (names & metrics & _ & _ & Hlen & Hcol).
  apply extract_frame in Hex as [_ Hcols].
  rewrite get_column_present
    by (unfold has_column; rewrite Hcols; now apply extracted_columns_requested).
  rewrite Hcol, Hlen. unfold added_cells.
  apply not_eq_sym, String.eqb_neq in Hn, Hu. now rewrite Hn, Hu.
Qed.

Lemma extract_other_columns_nan_witness :
  get_column Scenario.extracted_bank_cap "Bank"
  = Ok (replicate (nrows Scenario.extracted_bank_cap) NaN).
Proof.
  apply (extract_other_columns_nan Scenario.host "u" ["Bank"; "Cap"]%string
           Scenario.extracted_bank_cap "Bank").
  - vm_compute. reflexivity.
  - left. reflexivity.
  - discriminate.
  - discriminate.
Defined.

(** X3. A page with no [<tbody>] makes [extract] raise IndexError, for
    every list of requested columns. *)
Theorem extract_without_tbody h url attrs data :
  soup_of h url = Ok data ->
  find_all "tbody" data = [] ->
  extract h url attrs = Raise IndexError.
Proof.
  intros Hsoup Htb. unfold extract. rewrite Hsoup. simpl. rewrite Htb. reflexivity.
Qed.

Lemma extract_without_tbody_witness :
  extract (Scenario.host_of Scenario.page_without_table) "u"
    Scenario.standard_attributes = Raise IndexError.
Proof.
  apply (extract_without_tbody (Scenario.host_of Scenario.page_without_table) "u"
           Scenario.standard_attributes Scenario.page_without_table).
  - reflexivity.
  - reflexivity.
Defined.

Lemma extract_rows_all_skipped rows df :
  List.filter has_cell rows = [] -> extract_rows rows df = Ok df.
Proof.
  induction rows as [|row rows IH]; simpl; [reflexivity|].
  destruct (has_cell row) eqn:Hc; [discriminate|]. intros H.
  rewrite (extract_row_skipped _ _ Hc). simpl. auto.
Qed.

(** X4. When no [<tr>] of the first [<tbody>] has a [<td>] (a table with
    header rows only, or with no row), [extract] returns a frame with no
    row whose columns are exactly the requested names. *)
Theorem extract_no_data_rows h url attrs soup tbody :
  soup_of h url = Ok soup ->
  find_all "tbody" soup !! 0 = Some tbody ->
  List.filter has_cell (find_all "tr" tbody) = [] ->
  exists df,
    extract h url attrs = Ok df /\ nrows df = 0 /\ columns df = attrs
    /\ Forall (fun c => snd c = []) (data df).
Proof.
  intros Hsoup Htb Hrows. exists (empty_frame attrs). unfold extract.
  rewrite Hsoup. simpl. apply py_index_Ok in Htb. rewrite Htb. simpl.
  rewrite (extract_rows_all_skipped _ _ Hrows).
  repeat split.
  - unfold columns, empty_frame. simpl. rewrite map_map. apply map_id.
  - unfold empty_frame. simpl. apply Forall_map, Forall_forall. reflexivity.
Qed.

Lemma extract_no_data_rows_witness :
  exists df,
    extract (Scenario.host_of Scenario.page_header_only) "u"
      Scenario.standard_attributes = Ok df
    /\ nrows df = 0 /\ columns df = Scenario.standard_attributes
    /\ Forall (fun c => snd c = []) (data df).
Proof.
  apply (extract_no_data_rows (Scenario.host_of Scenario.page_header_only) "u"
           Scenario.standard_attributes Scenario.page_header_only
           (Tag "tbody" [Scenario.header_row])).
  - reflexivity.
  - reflexivity.
  - reflexivity.
Defined.

(** ** transform: edges and failures *)

Lemma set_column_fits df c l :
  length l = nrows df ->
  set_column df c l = Ok {| nrows := nrows df; data := replace_column c l (data df) |}.
Proof. intros H. unfold set_column. apply Nat.eqb_eq in H. now rewrite H. Qed.

Lemma get_column_length df c l :
  wf_frame df -> get_column df c = Ok l -> length l = nrows df.
Proof.
  intros Hwf H. apply get_column_Ok, assoc_elem_of in H.
  unfold wf_frame in Hwf. rewrite Forall_forall in Hwf. exact (Hwf _ H).
Qed.


Lemma converted_present d code rate usd :
  d !! code = Some rate ->
  converted d code (map Num usd)
  = Ok (map (fun v => Num (PyFloat.np_round (v * rate) 2)) usd).
Proof.
  intros H. unfold converted. rewrite H.
  induction usd as [|v usd IH]; simpl; [reflexivity|]. now rewrite IH.
Qed.

(** The steps of [transform] up to the conversions, when the rates are
    read, the frame has the USD column and every cell cleans. *)
Lemma transform_cleaned h df path d raw usd :
  wf_frame df ->
  rates_of h path = Ok d ->
  get_column df USD = Ok raw ->
  mapM clean raw = Ok usd ->
  transform h df path =
    let df1 := {| nrows := nrows df;
                  data := replace_column USD (map Num usd) (data df) |} in
    let* gbp_billion := converted d "GBP" (map Num usd) in
    let* df2 := set_column df1 GBP gbp_billion in
    let* usd2 := get_column df2 USD in
    let* eur_billion := converted d "EUR" usd2 in
    let* df3 := set_column df2 EUR eur_billion in
    let* usd3 := get_column df3 USD in
    let* inr_billion := converted d "INR" usd3 in
    set_column df3 INR inr_billion.
Proof.
  intros Hwf Hd Hraw Husd. unfold transform. fold USD GBP EUR INR.
  rewrite Hd. cbn [bind]. rewrite Hraw. cbn [bind]. rewrite Husd. cbn [bind].
  rewrite set_column_fits
    by (rewrite length_map, (mapM_length _ _ _ Husd); eauto using get_column_length).
  cbn [bind]. unfold get_column at 1. cbn [data].
  rewrite assoc_replace_eq. reflexivity.
Qed.

(** X5. On a frame with no row and distinct column names, [transform]
    asks for no rate: it returns, whatever the rate table holds (even
    nothing), a frame with no row in which the four columns are there and
    empty. *)
Theorem transform_empty_frame h df path d :
  wf_frame df ->
  NoDup (columns df) ->
  nrows df = 0 ->
  has_column df USD = true ->
  rates_of h path = Ok d ->
  exists df',
    transform h df path = Ok df' /\ nrows df' = 0
    /\ get_column df' USD = Ok [] /\ get_column df' GBP = Ok []
    /\ get_column df' EUR = Ok [] /\ get_column df' INR = Ok [].
Proof.
  intros Hwf _ Hn Hcol Hd. pose proof (get_column_present _ _ Hcol) as Hraw.
  pose proof (get_column_length _ _ _ Hwf Hraw) as Hlen. rewrite Hn in Hlen.
  destruct (column_or_nan df USD); [|discriminate Hlen].
  rewrite (transform_cleaned h df path d [] [] Hwf Hd Hraw eq_refl).
  cbv zeta. cbn [map converted mapM bind].
  rewrite set_column_fits by (symmetry; exact Hn). cbn [bind nrows data].
  unfold get_column at 1. cbn [data].
  rewrite assoc_replace_ne, assoc_replace_eq by discriminate.
  cbn [converted mapM bind]. rewrite set_column_fits by (symmetry; exact Hn).
  cbn [bind nrows data]. unfold get_column at 1. cbn [data].
  rewrite !assoc_replace_ne, assoc_replace_eq by discriminate.
  cbn [converted mapM bind]. rewrite set_column_fits by (symmetry; exact Hn).
  eexists. split; [reflexivity|]. cbn [nrows]. split; [exact Hn|].
  apply (transform_written _ [] [] [] [] (data df)). reflexivity.
Qed.

Lemma transform_empty_frame_witness :
  exists df',
    transform Scenario.host_without_rates
      (empty_frame Scenario.standard_attributes) "exchange_rate.csv" = Ok df'
    /\ nrows df' = 0
    /\ get_column df' USD = Ok [] /\ get_column df' GBP = Ok []
    /\ get_column df' EUR = Ok [] /\ get_column df' INR = Ok [].
Proof.
  apply (transform_empty_frame Scenario.host_without_rates
           (empty_frame Scenario.standard_attributes) "exchange_rate.csv" ∅).
  - apply empty_frame_wf.
  - apply (bool_decide_unpack _). vm_compute. exact I.
  - reflexivity.
  - reflexivity.
  - reflexivity.
Defined.



Lemma clean_text_raises s e :
  clean (Obj (NavigableString s)) = Raise e -> e = ValueError.
Proof.
  rewrite clean_text. unfold PyFloat.float.
  destruct (PyFloat.parse (cleaned s)); congruence.
Qed.

Lemma clean_not_numeric s :
  ~ FloatGrammar.numeric (cleaned s) ->
  clean (Obj (NavigableString s)) = Raise ValueError.
Proof.
  intros Hnot. rewrite clean_text. unfold PyFloat.float.
  destruct (PyFloat.parse (cleaned s)) as [f|] eqn:E; [|reflexivity].
  exfalso. eauto using parse_sound.
Qed.

Lemma mapM_clean_not_numeric raw i s :
  Forall is_text raw ->
  raw !! i = Some (Obj (NavigableString s)) ->
  ~ FloatGrammar.numeric (cleaned s) ->
  mapM clean raw = Raise ValueError.
Proof.
  intros Htext. revert i. induction Htext as [|c raw [s0 ->] Hraw IH]; intros i Hi Hnot.
  - discriminate.
  - cbn [mapM]. destruct i as [|i]; simpl in Hi.
    + injection Hi as ->. now rewrite clean_not_numeric.
    + destruct (clean (Obj (NavigableString s0))) as [v|e] eqn:E; cbn [bind].
      * rewrite (IH i Hi Hnot). reflexivity.
      * apply clean_text_raises in E. congruence.
Qed.

(** X7. When the column names are distinct, the USD column holds text
    and one of the strings is not numeric once cleaned, [transform] raises
    ValueError, wherever the string stands in the column. *)
Theorem transform_not_numeric h df path d raw i s :
  NoDup (columns df) ->
  rates_of h path = Ok d ->
  get_column df USD = Ok raw ->
  Forall is_text raw ->
  raw !! i = Some (Obj (NavigableString s)) ->
  ~ FloatGrammar.numeric (cleaned s) ->
  transform h df path = Raise ValueError.
Proof.
  intros _ Hd Hraw Htext Hi Hnot. unfold transform. fold USD.
  rewrite Hd. cbn [bind]. rewrite Hraw. cbn [bind].
  rewrite (mapM_clean_not_numeric _ _ _ Htext Hi Hnot). reflexivity.
Qed.

Lemma transform_not_numeric_witness :
  transform Scenario.host Scenario.extracted_not_numeric "exchange_rate.csv"
  = Raise ValueError.
Proof.
  apply (transform_not_numeric Scenario.host Scenario.extracted_not_numeric
           "exchange_rate.csv" Scenario.rates
           [Obj (NavigableString "100,000"); Obj (NavigableString "n/a")] 1 "n/a").
  - apply (bool_decide_unpack _). vm_compute. exact I.
  - reflexivity.
  - reflexivity.
  - repeat constructor; eexists; reflexivity.
  - reflexivity.
  - intros Hnum. apply parse_complete in Hnum as [f Hf]. vm_compute in Hf.
    discriminate Hf.
Defined.

(** X8. [transform] cannot be run on its own result: the USD column then
    holds floats, which have no [split], and when the frame has a row the
    second run raises AttributeError. *)
Theorem transform_not_repeatable h df path df' :
  transform h df path = Ok df' ->
  nrows df <> 0 ->
  transform h df' path = Raise AttributeError.
Proof.
  intros H Hn.
  apply transform_Ok in H
    as (d & raw & usd & cg & ce & cr & Hd & _ & Husd & Hlen & _ & _ & _ & _ & Hdata).
  apply mapM_length in Husd.
  apply transform_written in Hdata as (Hget & _).
  destruct usd as [|v usd]; [simpl in Husd; lia|].
  unfold transform. fold USD. rewrite Hd. cbn [bind]. rewrite Hget. reflexivity.
Qed.

Lemma transform_not_repeatable_witness :
  transform Scenario.host Scenario.transformed "exchange_rate.csv"
  = Raise AttributeError.
Proof.
  apply (transform_not_repeatable Scenario.host Scenario.extracted
           "exchange_rate.csv" Scenario.transformed).
  - vm_compute. reflexivity.
  - discriminate.
Defined.

Lemma cleaned_comma a b : cleaned (a +:+ String comma b) = cleaned (a +:+ b).
Proof.
  unfold cleaned. induction a as [|c a IH].
  - change (EmptyString +:+ String comma b) with (String comma b).
    change (EmptyString +:+ b) with b. reflexivity.
  - rewrite !app_cons_str. cbn [str_before].
    destruct (Ascii.eqb c newline); [reflexivity|]. cbn [str_remove].
    now rewrite IH.
Qed.

Lemma str_before_suffix c s t :
  str_mem c s = false -> str_before c (s +:+ String c t) = s.
Proof.
  induction s as [|a s IH]; intros H.
  - change (EmptyString +:+ String c t) with (String c t). cbn [str_before].
    now rewrite Ascii.eqb_refl.
  - rewrite app_cons_str. cbn [str_before str_mem] in *.
    apply orb_false_iff in H as [Ha Hs]. rewrite Ha. now rewrite IH.
Qed.

Lemma str_before_none c s : str_mem c s = false -> str_before c s = s.
Proof.
  induction s as [|a s IH]; intros H; [reflexivity|].
  cbn [str_before str_mem] in *. apply orb_false_iff in H as [Ha Hs].
  rewrite Ha. now rewrite IH.
Qed.

(** X9. Cleaning a metric does not see commas, nor what follows the first
    line feed: a comma put anywhere in the string changes nothing, and a
    line feed and any text put after a string with no line feed change
    nothing. *)
Theorem clean_ignores_commas_and_suffix :
  (forall a b,
     clean (Obj (NavigableString (a +:+ String comma b)))
     = clean (Obj (NavigableString (a +:+ b))))
  /\ (forall s t,
        str_mem newline s = false ->
        clean (Obj (NavigableString (s +:+ String newline t)))
        = clean (Obj (NavigableString s))).
Proof.
  split.
  - intros a b. rewrite !clean_text. now rewrite cleaned_comma.
  - intros s t Hs. rewrite !clean_text. unfold cleaned.
    now rewrite str_before_suffix, str_before_none.
Qed.

(** ** load_to_db: the table it creates *)








(** ** run_query: what it prints and what it leaves alone *)



(** ** The driver: what a run leaves behind *)

Lemma remove_first_head c l : remove_first c (c :: l) = l.
Proof. simpl. rewrite String.eqb_refl. reflexivity. Qed.

(** The stages of a run, one after the other, and what each leaves in the
    standard output, the files, the databases and the open connections. *)
Lemma main_stages h cfg w r w' :
  main h cfg w = (r, w') ->
  unwritable w' = unwritable w
  /\ match extract h (cfg_url cfg) (cfg_table_attributes cfg) with
     | Raise e =>
         r = Raise e /\ stdout w' = stdout w /\ files w' = files w
         /\ databases w' = databases w /\ connections w' = connections w
     | Ok df =>
         match transform h df (cfg_csv_path cfg) with
         | Raise e =>
             r = Raise e /\ stdout w' = stdout w ++ [PFrame df] /\ files w' = files w
             /\ databases w' = databases w /\ connections w' = connections w
         | Ok df' =>
             if decide (cfg_output_path cfg ∈ unwritable w) then
               r = Raise (write_error h (cfg_output_path cfg))
               /\ stdout w' = stdout w ++ [PFrame df; PFrame df']
               /\ files w' = files w
               /\ databases w' = databases w /\ connections w' = connections w
             else
               files w' = <[cfg_output_path cfg := to_csv h df']> (files w)
               /\ exists rl db1,
                    to_sql_append df' (cfg_table_name cfg) (tables_at w (cfg_db_name cfg))
                    = (rl, db1)
                    /\ databases w' = <[cfg_db_name cfg := db1]> (databases w)
                    /\ match rl with
                       | Raise e =>
                           r = Raise e
                           /\ stdout w' = stdout w ++ [PFrame df; PFrame df']
                           /\ connections w' = cfg_db_name cfg :: connections w
                       | Ok _ =>
                           match read_sql h query_statement db1 with
                           | Raise e =>
                               r = Raise e
                               /\ stdout w'
                                  = stdout w
                                    ++ [PFrame df; PFrame df'; PStr query_statement]
                               /\ connections w' = cfg_db_name cfg :: connections w
                           | Ok out =>
                               r = Ok tt
                               /\ stdout w'
                                  = stdout w
                                    ++ [PFrame df; PFrame df'; PStr query_statement;
                                        PFrame out]
                               /\ connections w' = connections w
                           end
                       end
         end
     end.
Proof.
  intros H. unfold main in H. cbv zeta in H.
  unfold run_query, load_to_db, load_to_csv, tables_of in H.
  unfold bindM, lift, log_progress, print, connect, close in H.
  cbv beta iota in H.
  destruct (extract h (cfg_url cfg) (cfg_table_attributes cfg)) as [df|e].
  2: { injection H as <- <-. repeat split. }
  destruct (transform h df (cfg_csv_path cfg)) as [df'|e].
  2: { injection H as <- <-. repeat split. }
  cbn [clock code_log stdout files unwritable databases connections existsb] in H.
  destruct (decide (cfg_output_path cfg ∈ unwritable w)) as [Hin|Hin].
  { injection H as <- <-. cbn [stdout files databases connections unwritable].
    rewrite <- app_assoc. repeat split. }
  cbn [clock code_log stdout files unwritable databases connections existsb] in H.
  rewrite String.eqb_refl in H. cbn [orb] in H.
  set (dbs := match databases w !! cfg_db_name cfg with
              | Some _ => databases w
              | None => <[cfg_db_name cfg := ∅]> (databases w)
              end) in H.
  assert (dbs !! cfg_db_name cfg = Some (tables_at w (cfg_db_name cfg))) as Hdb.
  { unfold dbs, tables_at. destruct (databases w !! cfg_db_name cfg) as [db|] eqn:E.
    - rewrite E. reflexivity.
    - rewrite lookup_insert_eq. reflexivity. }
  assert (forall db', <[cfg_db_name cfg := db']> dbs
                      = <[cfg_db_name cfg := db']> (databases w)) as Hins.
  { intros db'. unfold dbs. destruct (databases w !! cfg_db_name cfg); [reflexivity|].
    apply insert_insert_eq. }
  clearbody dbs. rewrite Hdb in H.
  destruct (to_sql_append df' (cfg_table_name cfg) (tables_at w (cfg_db_name cfg)))
    as [[[]|e] db1].
  2: { injection H as <- <-. split; [reflexivity|]. split; [reflexivity|].
       exists (Raise e), db1.
       cbn [stdout databases connections]. rewrite Hins, <- app_assoc. auto. }
  cbn [clock code_log stdout files unwritable databases connections existsb] in H.
  rewrite String.eqb_refl, lookup_insert_eq in H. cbn [orb bind] in H.
  fold query_statement in H.
  destruct (read_sql h query_statement db1) as [out|e] eqn:Eq; injection H as <- <-;
    (split; [reflexivity|]); (split; [reflexivity|]); exists (Ok tt), db1;
    (split; [reflexivity|]);
    rewrite Eq; cbn [stdout databases connections]; rewrite Hins, <- !app_assoc;
    rewrite ?String.eqb_refl; repeat split.
Qed.

Lemma tables_at_insert w w' name db1 :
  databases w' = <[name := db1]> (databases w) -> tables_at w' name = db1.
Proof. intros H. unfold tables_at. rewrite H, lookup_insert_eq. reflexivity. Qed.








(** X13. A run that completes prints four things and nothing else: the
    extracted frame, the transformed frame, the statement, and the result
    of the statement on the tables the run leaves in the database. *)
Theorem main_prints_frames_and_query h cfg w w' :
  main h cfg w = (Ok tt, w') ->
  exists df df' out,
    extract h (cfg_url cfg) (cfg_table_attributes cfg) = Ok df
    /\ transform h df (cfg_csv_path cfg) = Ok df'
    /\ read_sql h query_statement (tables_at w' (cfg_db_name cfg)) = Ok out
    /\ stdout w' = stdout w ++ [PFrame df; PFrame df'; PStr query_statement; PFrame out].
Proof.
  intros H. apply main_stages in H as [_ H].
  destruct (extract _ _ _) as [df|e] eqn:Hex; [|destruct H as [H _]; discriminate H].
  destruct (transform _ _ _) as [df'|e] eqn:Htr; [|destruct H as [H _]; discriminate H].
  destruct (decide _); [destruct H as [H _]; discriminate H|].
  destruct H as (_ & rl & db1 & _ & Hdb & H).
  destruct rl; [|destruct H as [H _]; discriminate H].
  destruct (read_sql _ _ _) as [out|e] eqn:Eq; [|destruct H as [H _]; discriminate H].
  exists df, df', out. rewrite (tables_at_insert _ _ _ _ Hdb).
  split; [reflexivity|]. split; [exact Htr|]. split; [exact Eq | apply H].
Qed.

Lemma main_prints_frames_and_query_witness :
  exists df df' out,
    extract Scenario.host "https://example.org/banks" Scenario.standard_attributes
    = Ok df
    /\ transform Scenario.host df "exchange_rate.csv" = Ok df'
    /\ read_sql Scenario.host query_statement
         (tables_at (snd (Scenario.run "Largest_banks")) "Banks.db") = Ok out
    /\ stdout (snd (Scenario.run "Largest_banks"))
       = stdout Scenario.fresh
         ++ [PFrame df; PFrame df'; PStr query_statement; PFrame out].
Proof.
  apply (main_prints_frames_and_query Scenario.host
           (Scenario.config "Largest_banks" Scenario.standard_attributes)
           Scenario.fresh (snd (Scenario.run "Largest_banks"))).
  vm_compute. reflexivity.
Defined.















(** ** The driver: the CSV file, end to end *)




(** ** extract and transform: when they return *)

Lemma extract_row_returns row df name mc :
  has_cell row = true ->
  row_name row = Some name ->
  row_metric row = Some mc ->
  extract_row row df
  = Ok (concat df (frame_of_dict [("Name"%string, Obj name);
                                  ("MC_USD_Billion"%string, Obj mc)])).
Proof.
  unfold has_cell, extract_row, row_name, row_metric. intros -> Hn Hm.
  destruct (find_all "td" row !! 1) as [c1|] eqn:E1; [|discriminate].
  destruct (find_all "a" c1 !! 1) as [a|] eqn:Ea; [|discriminate].
  destruct (find_all "td" row !! 2) as [c2|] eqn:E2; [|discriminate].
  apply py_index_Ok in E1, Ea, Hn, E2, Hm.
  rewrite E1. cbn [bind]. rewrite Ea. cbn [bind]. rewrite Hn. cbn [bind].
  rewrite E2. cbn [bind]. rewrite Hm. reflexivity.
Qed.

Lemma extract_rows_returns rows : forall df names metrics,
  map row_name (List.filter has_cell rows) = map Some names ->
  map row_metric (List.filter has_cell rows) = map Some metrics ->
  exists df', extract_rows rows df = Ok df'.
Proof.
  induction rows as [|row rows IH]; intros df names metrics Hn Hm; simpl.
  - eauto.
  - simpl in Hn, Hm. destruct (has_cell row) eqn:Hc.
    + destruct names as [|name names]; [discriminate Hn|].
      destruct metrics as [|mc metrics]; [discriminate Hm|].
      simpl in Hn, Hm. injection Hn as Hn Hns. injection Hm as Hm Hms.
      rewrite (extract_row_returns _ _ _ _ Hc Hn Hm). cbn [bind]. eauto.
    + rewrite (extract_row_skipped _ _ Hc). cbn [bind]. eauto.
Qed.

Lemma map_Some_inj {A} (l l' : list A) : map Some l = map Some l' -> l = l'.
Proof.
  revert l'. induction l as [|a l IH]; intros [|b l']; simpl; try discriminate.
  - reflexivity.
  - intros [= -> H]. f_equal. auto.
Qed.

(** Strings that are numeric once cleaned all clean, to the floats they
    are read as. *)
Lemma mapM_clean_numeric texts :
  Forall (fun s => FloatGrammar.numeric (cleaned s)) texts ->
  exists usd,
    mapM clean (map (fun s => Obj (NavigableString s)) texts) = Ok usd
    /\ map (fun s => PyFloat.parse (cleaned s)) texts = map Some usd.
Proof.
  induction 1 as [|s texts Hs _ (usd & IH & IHp)]; cbn [map mapM].
  - exists []. auto.
  - destruct (parse_complete _ Hs) as [f Hf].
    exists (f :: usd). rewrite clean_text. unfold PyFloat.float. rewrite Hf. cbn [bind].
    rewrite IH. cbn [bind map]. rewrite IHp. auto.
Qed.

(** With the three rates there, [transform] returns once the cells of the
    USD column clean. *)
Lemma transform_returns h df path d raw usd :
  wf_frame df ->
  rates_of h path = Ok d ->
  get_column df USD = Ok raw ->
  mapM clean raw = Ok usd ->
  first_missing_rate d = None ->
  exists df', transform h df path = Ok df'.
Proof.
  intros Hwf Hd Hraw Husd Hmiss.
  pose proof (get_column_length _ _ _ Hwf Hraw) as Hlen.
  pose proof (mapM_length _ _ _ Husd) as Hlu.
  rewrite (transform_cleaned h df path d raw usd Hwf Hd Hraw Husd). cbv zeta.
  unfold first_missing_rate in Hmiss. cbn [List.find] in Hmiss.
  destruct (d !! "GBP"%string) as [g|] eqn:Eg;
    [|rewrite bool_decide_eq_true_2 in Hmiss by reflexivity; discriminate Hmiss].
  rewrite bool_decide_eq_false_2 in Hmiss by discriminate.
  destruct (d !! "EUR"%string) as [e|] eqn:Ee;
    [|rewrite bool_decide_eq_true_2 in Hmiss by reflexivity; discriminate Hmiss].
  rewrite bool_decide_eq_false_2 in Hmiss by discriminate.
  destruct (d !! "INR"%string) as [r|] eqn:Er;
    [|rewrite bool_decide_eq_true_2 in Hmiss by reflexivity; discriminate Hmiss].
  rewrite (converted_present _ _ _ _ Eg). cbn [bind].
  rewrite set_column_fits by (cbn [nrows]; rewrite length_map; lia).
  cbn [bind nrows data]. unfold get_column at 1. cbn [data].
  rewrite assoc_replace_ne, assoc_replace_eq by discriminate. cbn [bind].
  rewrite (converted_present _ _ _ _ Ee). cbn [bind].
  rewrite set_column_fits by (cbn [nrows]; rewrite length_map; lia).
  cbn [bind nrows data]. unfold get_column at 1. cbn [data].
  rewrite !assoc_replace_ne, assoc_replace_eq by discriminate. cbn [bind].
  rewrite (converted_present _ _ _ _ Er). cbn [bind].
  rewrite set_column_fits by (cbn [nrows]; rewrite length_map; lia).
  eauto.
Qed.

(** X21. [extract] and then [transform] return when the requested
    column names are distinct, when the page has a [<tbody>] in which
    every row with a cell has a text as its name and, as its metric, a
    text that is numeric once cleaned, when there is such a row, and when
    the reference file holds the three rates.  The frame has then one row
    per such row, its Name column holds the names and its USD column the
    metrics as floats, in page order. *)
Theorem extract_then_transform_return h url attrs path soup tbody d names texts :
  NoDup attrs ->
  soup_of h url = Ok soup ->
  find_all "tbody" soup !! 0 = Some tbody ->
  map row_name (List.filter has_cell (find_all "tr" tbody))
  = map (fun s => Some (NavigableString s)) names ->
  map row_metric (List.filter has_cell (find_all "tr" tbody))
  = map (fun s => Some (NavigableString s)) texts ->
  Forall (fun s => FloatGrammar.numeric (cleaned s)) texts ->
  names <> [] ->
  rates_of h path = Ok d ->
  first_missing_rate d = None ->
  exists df df' usd,
    extract h url attrs = Ok df
    /\ transform h df path = Ok df'
    /\ nrows df' = length names
    /\ map (fun s => PyFloat.parse (cleaned s)) texts = map Some usd
    /\ get_column df' "Name" = Ok (map (fun s => Obj (NavigableString s)) names)
    /\ get_column df' USD = Ok (map Num usd).
Proof.
  intros _ Hsoup Htb Hnames Htexts Hnum Hne Hd Hrates.
  rewrite <- (map_map NavigableString Some) in Hnames, Htexts.
  assert (exists df, extract h url attrs = Ok df) as [df Hex].
  { unfold extract. rewrite Hsoup. cbn [bind]. cbv zeta.
    apply py_index_Ok in Htb. rewrite Htb. cbn [bind].
    eapply extract_rows_returns; eassumption. }
  destruct (extract_cells _ _ _ _ _ _ Hsoup Htb Hex)
    as (names' & metrics & Hn' & Hm' & Hlen & Hcol).
  rewrite Hnames in Hn'. apply map_Some_inj in Hn' as <-.
  rewrite Htexts in Hm'. apply map_Some_inj in Hm' as <-.
  pose proof (extract_frame _ _ _ _ Hex) as [Hwf Hcols].
  rewrite length_map in Hlen.
  assert (nrows df <> 0) as Hrows by (rewrite Hlen; destruct names; simpl; congruence).
  destruct (extracted_columns_keys attrs _ Hrows) as [H1 H2].
  rewrite <- Hcols in H1, H2.
  pose proof (get_column_present _ _ H1) as Hname.
  pose proof (get_column_present _ _ H2) as Hraw.
  rewrite Hcol in Hname, Hraw.
  change (added_cells "Name" (map NavigableString names) (map NavigableString texts))
    with (map Obj (map NavigableString names)) in Hname.
  change (added_cells "MC_USD_Billion" (map NavigableString names)
            (map NavigableString texts))
    with (map Obj (map NavigableString texts)) in Hraw.
  rewrite map_map in Hname, Hraw.
  destruct (mapM_clean_numeric _ Hnum) as (usd & Husd & Hparse).
  destruct (transform_returns h df path d _ usd Hwf Hd Hraw Husd Hrates) as [df' Htr].
  exists df, df', usd. split; [exact Hex|]. split; [exact Htr|].
  apply transform_Ok in Htr
    as (d' & raw' & usd' & gbp & eur & rup & _ & Hraw' & Husd' & _ & _ & _ & _ & Hn & Hdata).
  unfold USD in Hraw'. rewrite Hraw in Hraw'. injection Hraw' as <-.
  rewrite Husd in Husd'. injection Husd' as <-.
  split; [congruence|]. split; [exact Hparse|]. split.
  - unfold get_column. rewrite Hdata. rewrite !assoc_replace_ne by discriminate.
    exact Hname.
  - apply transform_written in Hdata. apply Hdata.
Qed.

Lemma extract_then_transform_return_witness :
  exists df df' usd,
    extract Scenario.host "https://example.org/banks" ["Bank"; "Cap"]%string = Ok df
    /\ transform Scenario.host df "exchange_rate.csv" = Ok df'
    /\ nrows df' = length ["Bank A"%string]
    /\ map (fun s => PyFloat.parse (cleaned s)) ["100,000" +:+ Scenario.line_feed]
       = map Some usd
    /\ get_column df' "Name"
       = Ok (map (fun s => Obj (NavigableString s)) ["Bank A"%string])
    /\ get_column df' USD = Ok (map Num usd).
Proof.
  apply (extract_then_transform_return Scenario.host "https://example.org/banks"
           ["Bank"; "Cap"]%string "exchange_rate.csv" Scenario.page
           (Tag "tbody" [Scenario.header_row; Scenario.bank_row]) Scenario.rates
           ["Bank A"%string] ["100,000" +:+ Scenario.line_feed]).
  - apply (bool_decide_unpack _). vm_compute. exact I.
  - reflexivity.
  - vm_compute. reflexivity.
  - vm_compute. reflexivity.
  - vm_compute. reflexivity.
  - constructor; [|constructor].
    apply (parse_sound _ 100000%float). vm_compute. reflexivity.
  - discriminate.
  - reflexivity.
  - vm_compute. reflexivity.
Defined.
